(** * CryptoStrategyAnalysis: moving-average crossover back-test and grid search

    A shallow embedding of [trading_strategy.py], [metrics.py], the tuning
    loop of [main.py] and the pure parts of [data_fetching.py], followed by
    the properties of the specification that were checked against it.

    Modelling conventions.
    - A pandas [DataFrame] is a row count, the kind of its index and a finite
      map from column names to columns; a column is a list of cells.  The
      functions of the source mutate the frame they receive and return that
      same object, so they are written in a state-and-exception monad whose
      state is the one shared frame.
    - A cell is an IEEE 754 binary64 number.  Sums, differences, products,
      quotients, square roots and comparisons are those of the standard
      library's executable specification of binary64 (round to nearest, ties
      to even; signed zeros, infinities and NaN), which is what Python floats
      and numpy's [float64] compute.  Integer columns ([Signal],
      [Managed_Position]) hold the cells 0 and 1.
    - Two results are taken from pandas and numpy without fixing how they are
      accumulated: the rolling mean and the sum of an array.  They are
      parameters of the development, constrained only by what the properties
      need (a rolling mean is missing while its window is not full; a sum of
      zeros is zero).  Left-to-right accumulation is one instance; it is used
      to run the examples, whose sums are exact.
    - Chained assignments ([df[c][a:] = v], [df[c].iloc[i] = v]) write
      through to the frame, as they do in the pandas versions for which
      [main.py] silences [SettingWithCopyWarning]. *)

From Stdlib Require Import ZArith Lia SpecFloat.
From stdpp Require Import gmap strings list fin_maps sorting.

(** ** Doubles *)

Module F64.

Definition prec : Z := 53.
Definition emax : Z := 1024.

Abbreviation float := spec_float.
Abbreviation NaN := S754_nan.
Abbreviation PInf := (S754_infinity false).
Abbreviation NInf := (S754_infinity true).

(** Conversion of an integer, rounded to the nearest double. *)
Definition of_Z (z : Z) : float := binary_normalize prec emax z 0 false.
Definition of_nat (n : nat) : float := of_Z (Z.of_nat n).

Definition zero : float := Eval vm_compute in of_Z 0.
Definition one : float := Eval vm_compute in of_Z 1.

Definition is_nan (x : float) : bool :=
  match x with S754_nan => true | _ => false end.

(** Neither a missing value nor an infinity. *)
Definition is_finite (x : float) : bool :=
  match x with S754_zero _ | S754_finite _ _ _ => true | _ => false end.

Definition add : float -> float -> float := SFadd prec emax.
Definition sub : float -> float -> float := SFsub prec emax.
Definition mul : float -> float -> float := SFmul prec emax.

(** Division never raises on doubles: [0/0] is [NaN], [x/0] an infinity. *)
Definition div : float -> float -> float := SFdiv prec emax.

(** [np.sqrt] *)
Definition sqrt : float -> float := SFsqrt prec emax.

(** Comparisons; every comparison with [NaN] is false. *)
Definition ltb : float -> float -> bool := SFltb.
Definition gtb (x y : float) : bool := ltb y x.
Definition eqb : float -> float -> bool := SFeqb.

(** The double that the decimal literal [n/d] denotes ([0.05] is
    [decimal 5 100]): the quotient of two exact integers, rounded once. *)
Definition decimal (n d : Z) : float := div (of_Z n) (of_Z d).

End F64.

Export F64.

Arguments F64.of_Z : simpl never.
Arguments F64.add : simpl never.
Arguments F64.sub : simpl never.
Arguments F64.mul : simpl never.
Arguments F64.div : simpl never.
Arguments F64.sqrt : simpl never.
Arguments F64.ltb : simpl never.
Arguments F64.eqb : simpl never.
Arguments F64.decimal : simpl never.

Declare Scope float_scope.
Delimit Scope float_scope with F.
Bind Scope float_scope with spec_float.
Notation "x + y" := (F64.add x y) : float_scope.
Notation "x - y" := (F64.sub x y) : float_scope.
Notation "x * y" := (F64.mul x y) : float_scope.
Notation "x / y" := (F64.div x y) : float_scope.
Notation "x <? y" := (F64.ltb x y) : float_scope.
Notation "x >? y" := (F64.gtb x y) : float_scope.
Notation "x =? y" := (F64.eqb x y) : float_scope.

Global Instance float_inhabited : Inhabited float := populate NaN.

(** ** pandas Series operations used by the source *)

Module pd.

Abbreviation Series := (list float).

(** [s.shift(1)] *)
Definition shift1 (s : Series) : Series := take (length s) (NaN :: s).

(** [s.diff()] *)
Definition diff (s : Series) : Series := zip_with F64.sub s (shift1 s).

(** [s.fillna(v)] *)
Definition fillna (v : float) (s : Series) : Series :=
  map (fun x => if is_nan x then v else x) s.

(** [s.fillna(method='pad')]: a missing cell repeats the last valid one. *)
Fixpoint ffill_from (last : float) (s : Series) : Series :=
  match s with
  | [] => []
  | x :: r => let y := if is_nan x then last else x in y :: ffill_from y r
  end.

Definition ffill (s : Series) : Series := ffill_from NaN s.

(** [s.pct_change()], which pandas computes as [data / data.shift(1) - 1]
    on the padded data. *)
Definition pct_change (s : Series) : Series :=
  let data := ffill s in
  map (fun x => (x - one)%F) (zip_with F64.div data (shift1 data)).

(** [s.cumprod()]: missing cells are skipped and stay missing. *)
Fixpoint cumprod_from (acc : float) (s : Series) : Series :=
  match s with
  | [] => []
  | x :: r =>
      if is_nan x then NaN :: cumprod_from acc r
      else let acc' := (acc * x)%F in acc' :: cumprod_from acc' r
  end.

Definition cumprod (s : Series) : Series := cumprod_from one s.

(** [s.cummax()], same treatment of missing cells. *)
Fixpoint cummax_from (acc : option float) (s : Series) : Series :=
  match s with
  | [] => []
  | x :: r =>
      if is_nan x then NaN :: cummax_from acc r
      else
        let m := match acc with
                 | Some a => if (x >? a)%F then x else a
                 | None => x
                 end in
        m :: cummax_from (Some m) r
  end.

Definition cummax (s : Series) : Series := cummax_from None s.

Definition dropna (s : Series) : Series :=
  filter (fun x => is_nan x = false) s.

(** [s.min()], skipping missing cells. *)
Definition smin (s : Series) : float :=
  match dropna s with
  | [] => NaN
  | x :: r => foldl (fun m y => if (y <? m)%F then y else m) x r
  end.

(** [np.where(cond, 1, 0)] *)
Definition where_1_0 (cond : list bool) : Series :=
  map (fun b : bool => if b then one else zero) cond.

(** Accumulation from the left: one way to sum an array. *)
Definition left_sum (l : Series) : float := foldl F64.add zero l.

(** The mean of the last [w] observations of [prefix], summed from the
    left; missing while fewer than [w] observations are available. *)
Definition left_window_mean (w : nat) (prefix : Series) : float :=
  if (length prefix <? w)%nat then NaN
  else (left_sum (drop (length prefix - w) prefix) / of_nat w)%F.

End pd.

Export pd.

(** ** The shared DataFrame and the effects of the source *)

(** The index of a frame decides how [series[-1]] is read: on an index of
    dates an integer key is a position, on the default integer index
    ([0 .. n-1]) it is a label. *)
Inductive index_kind : Type :=
  | DatetimeIndex
  | RangeIndex.

Record DataFrame : Type := mkFrame {
  nrows : nat;
  index : index_kind;
  cols : gmap string Series
}.

(** A frame as the market-data provider hands it over: closing prices
    indexed by date. *)
Definition price_frame (close : Series) : DataFrame :=
  mkFrame (length close) DatetimeIndex {["Close"%string := close]}.

(** The same rows and columns under another index. *)
Definition with_index (i : index_kind) (df : DataFrame) : DataFrame :=
  mkFrame (nrows df) i (cols df).

(** The key of a [KeyError]: a column name or an integer label. *)
Inductive label : Type :=
  | LStr (s : string)
  | LInt (z : Z).

Coercion LStr : string >-> label.

Inductive exn : Type :=
  | KeyError (k : label)
  | IndexError
  | TypeError
  | ValueError.

Arguments KeyError k%_string.

Inductive result (A : Type) : Type :=
  | Ok (a : A)
  | Raise (e : exn).
Arguments Ok {A} a.
Arguments Raise {A} e.

(** A computation reads and mutates the one frame object and either
    returns or raises; the frame keeps the writes done before a raise. *)
Definition M (A : Type) : Type := DataFrame -> result A * DataFrame.

Definition ret {A} (a : A) : M A := fun df => (Ok a, df).

Definition raise {A} (e : exn) : M A := fun df => (Raise e, df).

Definition bind {A B} (m : M A) (k : A -> M B) : M B :=
  fun df =>
    match m df with
    | (Ok a, df') => k a df'
    | (Raise e, df') => (Raise e, df')
    end.

Notation "'do' x <- m ; k" := (bind m (fun x => k))
  (at level 10, x name, m at level 100, k at level 200).
Notation "m ;; k" := (bind m (fun _ => k))
  (at level 100, k at level 200, right associativity).

(** [len(df)] *)
Definition len : M nat := fun df => (Ok (nrows df), df).

(** [df[k]] *)
Definition getcol (k : string) : M Series :=
  fun df =>
    match cols df !! k with
    | Some c => (Ok c, df)
    | None => (Raise (KeyError k), df)
    end.

(** The frame with column [k] created or replaced; the index is kept. *)
Definition with_col (k : string) (c : Series) (df : DataFrame) : DataFrame :=
  mkFrame (nrows df) (index df) (<[k := c]> (cols df)).

(** [df[k] = series] *)
Definition setcol (k : string) (c : Series) : M unit :=
  fun df => (Ok tt, with_col k c df).

(** [df[k] = scalar] *)
Definition setcol_scalar (k : string) (v : float) : M unit :=
  fun df => (Ok tt, with_col k (replicate (nrows df) v) df).

(** [df[k][a:] = values].  pandas compares the length of the slice,
    [len - a], with the length of the array and raises [ValueError] when
    they differ; for [a > len] the length of the slice counts as negative,
    which no array has. *)
Definition setcol_from (k : string) (a : nat) (values : Series) : M unit :=
  do c <- getcol k;
  if (a <=? length c)%nat && (length values =? length c - a)%nat
  then setcol k (take a c ++ values)
  else raise ValueError.

(** [df[k].iloc[i]] *)
Definition iloc_get (k : string) (i : nat) : M float :=
  do c <- getcol k;
  match c !! i with
  | Some v => ret v
  | None => raise IndexError
  end.

(** [df[k].iloc[i] = v] *)
Definition iloc_set (k : string) (i : nat) (v : float) : M unit :=
  do c <- getcol k;
  if (i <? length c)%nat then setcol k (<[i := v]> c) else raise IndexError.

(** [df[k].iloc[-1]] *)
Definition iloc_last (k : string) : M float :=
  do c <- getcol k;
  match last c with
  | Some v => ret v
  | None => raise IndexError
  end.

(** [s[-1]] on a series that carries the index of the frame: the last
    cell by position on an index of dates ([IndexError] if there is none), a
    lookup of the label [-1] on the default integer index, which has no such
    label. *)
Definition getitem_minus_1 (s : Series) : M float :=
  fun df =>
    match index df with
    | RangeIndex => (Raise (KeyError (LInt (-1))), df)
    | DatetimeIndex =>
        match last s with
        | Some v => (Ok v, df)
        | None => (Raise IndexError, df)
        end
    end.

(** [for x in xs: body(x)] *)
Fixpoint for_each {A} (xs : list A) (body : A -> M unit) : M unit :=
  match xs with
  | [] => ret tt
  | x :: r => body x ;; for_each r body
  end.

(** [range(a, b)] *)
Definition range (a b : nat) : list nat := seq a (b - a).

(** [range(a, b, k)] *)
Definition range_step (a b k : nat) : list nat :=
  map (fun i => a + i * k) (seq 0 ((b - a + k - 1) / k)).

(** ** data_fetching.py *)

(** [data.empty]: one of the two axes has length 0. *)
Definition is_empty (df : DataFrame) : bool :=
  (nrows df =? 0)%nat || (size (cols df) =? 0)%nat.

Section Fetch.

(** [yf.download(ticker, start=..., end=...)]: the market-data provider,
    which returns a frame or raises. *)
Variable download : string -> string -> string -> result DataFrame.

(** One iteration of the loop of [fetch_crypto_data_multiple]: an empty
    frame and an exception are reported and the ticker is left out. *)
Definition fetch_step (start_date end_date : string)
    (crypto_data : gmap string DataFrame) (ticker : string)
    : gmap string DataFrame :=
  match download ticker start_date end_date with
  | Ok data =>
      if is_empty data then crypto_data else <[ticker := data]> crypto_data
  | Raise _ => crypto_data
  end.

Definition fetch_crypto_data_multiple (tickers : list string)
    (start_date end_date : string) : gmap string DataFrame :=
  foldl (fetch_step start_date end_date) ∅ tickers.

(** What the provider has for a ticker, if it is usable. *)
Definition usable (ticker start_date end_date : string) : option DataFrame :=
  match download ticker start_date end_date with
  | Ok data => if is_empty data then None else Some data
  | Raise _ => None
  end.

End Fetch.

(** A trading day of the index. *)
Record date : Type := mkDate {
  dyear : nat;
  dmonth : nat;
  dday : nat
}.

(** A frame as [split_into_quarters] sees it: each row with its index
    entry (the row itself is its closing price). *)
Abbreviation dated_row := (date * float)%type.

(** [df.loc["Y-MM":"Y-MM"]] on the chronologically sorted index that the
    provider returns: the rows of year [year] whose month lies between the
    two months, both included, in their order. *)
Definition loc_months (rows : list dated_row) (year first_month last_month : nat)
    : list dated_row :=
  filter (fun r => dyear (fst r) = year
                   /\ first_month <= dmonth (fst r)
                   /\ dmonth (fst r) <= last_month) rows.

(** One quarter of one year of the loops of [split_into_quarters]: the
    dict entry it adds, if any.  The key ["Q{q}-{year}"] is kept as the pair
    [(q, year)]. *)
Definition quarter_entry (rows : list dated_row) (year q : nat)
    : list (nat * nat * list dated_row) :=
  let start_month := 3 * (q - 1) + 1 in
  let end_month := start_month + 3 in
  let quarter_data := loc_months rows year start_month (end_month - 1) in
  match quarter_data with
  | [] => []
  | _ => [(q, year, quarter_data)]
  end.

(** The dict is returned as the list of its entries in insertion order; the
    loops visit every pair of year and quarter once, so no key is
    assigned twice. *)
Definition split_into_quarters (rows : list dated_row)
    : result (list (nat * nat * list dated_row)) :=
  match rows !! 0, last rows with
  | Some first_row, Some last_row =>
      let start_year := dyear (fst first_row) in
      let end_year := dyear (fst last_row) in
      Ok (year ← range start_year (end_year + 1);
          q ← range 1 5;
          quarter_entry rows year q)
  | _, _ => Raise IndexError
  end.

(** Dates in calendar order. *)
Definition date_le (d1 d2 : date) : Prop :=
  dyear d1 < dyear d2
  \/ (dyear d1 = dyear d2
      /\ (dmonth d1 < dmonth d2
          \/ (dmonth d1 = dmonth d2 /\ dday d1 <= dday d2))).

(** An index in chronological order whose months are calendar months. *)
Definition chronological (rows : list dated_row) : Prop :=
  StronglySorted (fun r1 r2 => date_le (fst r1) (fst r2)) rows
  /\ Forall (fun r => 1 <= dmonth (fst r) <= 12) rows.

(** The quarter of the year that a month belongs to. *)
Definition quarter_of (month : nat) : nat := (month - 1) / 3 + 1.

(** ** What the source takes from pandas and numpy *)

Section Numerics.

(** [prefix.rolling(window=w).mean()] at the last date of [prefix].  pandas
    carries a running sum from one window to the next, so the cell is a
    function of the observations up to its own date. *)
Variable window_mean : nat -> Series -> float.

(** [min_periods] is the window: the mean is missing while the window is
    not full. *)
Hypothesis window_mean_short :
  forall (w : nat) (prefix : Series),
    length prefix < w -> window_mean w prefix = NaN.

(** The sum of a float array; numpy does not fix the order in which it
    accumulates. *)
Variable fsum : Series -> float.

Hypothesis fsum_zeros : forall k : nat, fsum (replicate k zero) = zero.

(** [s.rolling(window=w).mean()]: cell [t] sees the observations up to [t]. *)
Definition rolling_mean (w : nat) (s : Series) : Series :=
  imap (fun t _ => window_mean w (take (S t) s)) s.

(** [s.mean()]: missing cells count as 0 in the sum and are left out of
    the count. *)
Definition mean (s : Series) : float :=
  let count := length (dropna s) in
  if (count =? 0)%nat then NaN
  else (fsum (fillna zero s) / of_nat count)%F.

(** [s.std()]: sample deviation ([ddof = 1]) of the valid cells. *)
Definition std (s : Series) : float :=
  let count := length (dropna s) in
  if (count <? 2)%nat then NaN
  else
    let avg := (fsum (fillna zero s) / of_nat count)%F in
    let sqr :=
      map (fun x => if is_nan x then zero else ((avg - x) * (avg - x))%F) s in
    F64.sqrt (fsum sqr / of_nat (count - 1))%F.

(** ** trading_strategy.py *)

(** The frame is mutated in place and returned; the returned reference is
    the state of the computation, so the functions below return [tt]. *)
Definition apply_moving_average_strategy (short_window long_window : nat) : M unit :=
  do close <- getcol "Close";
  setcol "SMA_Short" (rolling_mean short_window close);;
  do close <- getcol "Close";
  setcol "SMA_Long" (rolling_mean long_window close);;
  setcol_scalar "Signal" zero;;
  do sma_short <- getcol "SMA_Short";
  do sma_long <- getcol "SMA_Long";
  setcol_from "Signal" short_window
    (where_1_0 (zip_with F64.gtb (drop short_window sma_short)
                                 (drop short_window sma_long)));;
  do signal <- getcol "Signal";
  setcol "Position" (fillna zero (diff signal)).

(** One iteration of the loop of [apply_risk_management]. *)
Definition risk_step (stop_loss take_profit : float) (i : nat) : M unit :=
  do signal <- iloc_get "Signal" i;
  (if (signal =? one)%F then iloc_set "Managed_Position" i one
   else if (signal =? zero)%F then iloc_set "Managed_Position" i zero
   else ret tt);;
  do held <- iloc_get "Managed_Position" (i - 1);
  if (held =? one)%F then
    do close <- iloc_get "Close" i;
    do prev_close <- iloc_get "Close" (i - 1);
    if (close <? prev_close * (one - stop_loss))%F then
      iloc_set "Managed_Position" i zero
    else if (close >? prev_close * (one + take_profit))%F then
      iloc_set "Managed_Position" i zero
    else ret tt
  else ret tt.

Definition apply_risk_management (stop_loss take_profit : float) : M unit :=
  setcol_scalar "Managed_Position" zero;;
  do n <- len;
  for_each (range 1 n) (risk_step stop_loss take_profit).

Definition backtest_strategy : M unit :=
  do close <- getcol "Close";
  setcol "Daily_Return" (pct_change close);;
  do daily <- getcol "Daily_Return";
  do managed <- getcol "Managed_Position";
  setcol "Strategy_Return" (zip_with F64.mul daily (shift1 managed));;
  do daily <- getcol "Daily_Return";
  setcol "Cumulative_Market_Returns"
    (map (fun x => (x - one)%F) (cumprod (map (F64.add one) daily)));;
  do strat <- getcol "Strategy_Return";
  setcol "Cumulative_Strategy_Returns"
    (map (fun x => (x - one)%F) (cumprod (map (F64.add one) strat))).

(** A cell of the parameter grid (the dict [params]). *)
Record params : Type := mkParams {
  short_window : nat;
  long_window : nat;
  stop_loss : float;
  take_profit : float
}.

(** The cells that [sklearn.model_selection.ParameterGrid] yields, in its
    order: the keys are sorted by name ([long_window], [short_window],
    [stop_loss], [take_profit]) and the product is enumerated with the last
    key varying fastest. *)
Definition ParameterGrid_cells (short_windows long_windows : list nat)
    (stop_losses take_profits : list float) : list params :=
  lw ← long_windows;
  sw ← short_windows;
  sl ← stop_losses;
  tp ← take_profits;
  [mkParams sw lw sl tp].

(** [ParameterGrid({...})]: the constructor rejects an empty list of
    values with [ValueError]. *)
Definition ParameterGrid (short_windows long_windows : list nat)
    (stop_losses take_profits : list float) : M (list params) :=
  match short_windows, long_windows, stop_losses, take_profits with
  | _ :: _, _ :: _, _ :: _, _ :: _ =>
      ret (ParameterGrid_cells short_windows long_windows stop_losses take_profits)
  | _, _, _, _ => raise ValueError
  end.

(** The three pipeline calls of one grid cell and its score,
    [results['Cumulative_Strategy_Returns'].iloc[-1]]. *)
Definition run_cell (p : params) : M float :=
  apply_moving_average_strategy (short_window p) (long_window p);;
  apply_risk_management (stop_loss p) (take_profit p);;
  backtest_strategy;;
  iloc_last "Cumulative_Strategy_Returns".

(** The loop of [tune_hyperparameters], carrying [best_params] and
    [best_return]. *)
Fixpoint tune_loop (grid : list params) (best_params : option params)
    (best_return : float) : M (option params) :=
  match grid with
  | [] => ret best_params
  | p :: rest =>
      do cumulative_return <- run_cell p;
      if (cumulative_return >? best_return)%F
      then tune_loop rest (Some p) cumulative_return
      else tune_loop rest best_params best_return
  end.

Definition tune_hyperparameters (short_windows long_windows : list nat)
    (stop_losses take_profits : list float) : M (option params) :=
  do param_grid <- ParameterGrid short_windows long_windows stop_losses take_profits;
  tune_loop param_grid None NInf.

(** ** metrics.py and the tuning loop of main.py *)

Definition calculate_max_drawdown (cumulative_returns : Series) : float :=
  let running_max := cummax cumulative_returns in
  let drawdowns :=
    zip_with F64.div (zip_with F64.sub cumulative_returns running_max)
      running_max in
  smin drawdowns.

(** The three figures that [print_performance_metrics] prints. *)
Record metrics : Type := mkMetrics {
  sharpe_ratio : float;
  max_drawdown : float;
  annualized_return : float
}.

(** What a Python variable that is either [None] or the frame holds. *)
Inductive frame_ref : Type :=
  | RNone
  | RFrame.

Definition print_performance_metrics : M metrics :=
  do strat <- getcol "Strategy_Return";
  let cumulative_returns :=
    map (fun x => (x - one)%F) (cumprod (map (F64.add one) strat)) in
  do strat_m <- getcol "Strategy_Return";
  do strat_s <- getcol "Strategy_Return";
  let sharpe := (mean strat_m / std strat_s * F64.sqrt (of_Z 252))%F in
  let drawdown := calculate_max_drawdown cumulative_returns in
  do final <- getitem_minus_1 cumulative_returns;
  do n <- len;
  ret (mkMetrics sharpe drawdown (final / (of_nat n / of_Z 252))%F).

(** The grid of [hyperparameter_tuning], in the order of its nested loops. *)
Definition main_grid : list params :=
  sw ← range_step 10 31 5;
  lw ← range_step 50 101 10;
  sl ← [decimal 3 100; decimal 5 100; decimal 7 100];
  tp ← [decimal 5 100; decimal 10 100; decimal 15 100];
  [mkParams sw lw sl tp].

(** The nested loops of [hyperparameter_tuning]; [best_results] is bound to
    the frame itself, not to a copy of it. *)
Fixpoint main_loop (grid : list params) (best_params : option params)
    (best_return : float) (best_results : frame_ref)
    : M (option params * float * frame_ref) :=
  match grid with
  | [] => ret (best_params, best_return, best_results)
  | p :: rest =>
      do cumulative_return <- run_cell p;
      if (cumulative_return >? best_return)%F
      then main_loop rest (Some p) cumulative_return RFrame
      else main_loop rest best_params best_return best_results
  end.

(** [print_performance_metrics(None)] fails on [None['Strategy_Return']]. *)
Definition hyperparameter_tuning : M (option params * float) :=
  do final <- main_loop main_grid None NInf RNone;
  let '(best_params, best_return, best_results) := final in
  match best_results with
  | RNone => raise TypeError
  | RFrame => print_performance_metrics;; ret (best_params, best_return)
  end.

(** ** Closed forms of the derived columns

    The columns that one run writes, as functions of the closing prices,
    the row count and the parameters.  They are proved below to be what the
    code computes. *)

Definition signal_col (n short_window long_window : nat) (close : Series) : Series :=
  take short_window (replicate n zero)
  ++ where_1_0 (zip_with F64.gtb
                  (drop short_window (rolling_mean short_window close))
                  (drop short_window (rolling_mean long_window close))).

(** The cell that one loop iteration of [apply_risk_management] leaves at
    its index, from the four cells it reads. *)
Definition risk_cell (stop_loss take_profit signal held close prev_close : float)
    : float :=
  let target := if (signal =? one)%F then one else zero in
  if (held =? one)%F then
    if (close <? prev_close * (one - stop_loss))%F then zero
    else if (close >? prev_close * (one + take_profit))%F then zero
    else target
  else target.

Fixpoint position_at (stop_loss take_profit : float) (signal close : Series)
    (t : nat) : float :=
  match t with
  | 0 => zero
  | S t' =>
      risk_cell stop_loss take_profit (signal !!! t)
        (position_at stop_loss take_profit signal close t')
        (close !!! t) (close !!! t')
  end.

Definition managed_col (n : nat) (stop_loss take_profit : float)
    (signal close : Series) : Series :=
  map (position_at stop_loss take_profit signal close) (seq 0 n).

Definition cumulative (returns : Series) : Series :=
  map (fun x => (x - one)%F) (cumprod (map (F64.add one) returns)).

Definition strategy_return_col (p : params) (n : nat) (close : Series) : Series :=
  zip_with F64.mul (pct_change close)
    (shift1 (managed_col n (stop_loss p) (take_profit p)
               (signal_col n (short_window p) (long_window p) close) close)).

(** The frame in which [apply_moving_average_strategy] raises when the
    short window exceeds the number of rows: the two averages and the zero
    flags are written, the [Position] column is not. *)
Definition ma_raised_frame (short_window long_window : nat) (close : Series)
    (df : DataFrame) : DataFrame :=
  with_col "Signal" (replicate (nrows df) zero)
    (with_col "SMA_Long" (rolling_mean long_window close)
      (with_col "SMA_Short" (rolling_mean short_window close) df)).

(** The frame after [apply_moving_average_strategy] has returned. *)
Definition ma_frame (short_window long_window : nat) (close : Series)
    (df : DataFrame) : DataFrame :=
  let signal := signal_col (nrows df) short_window long_window close in
  with_col "Position" (fillna zero (diff signal))
    (with_col "Signal" signal
      (ma_raised_frame short_window long_window close df)).

(** The frame after [backtest_strategy]. *)
Definition bt_frame (close managed : Series) (df : DataFrame) : DataFrame :=
  let daily := pct_change close in
  let strat := zip_with F64.mul daily (shift1 managed) in
  with_col "Cumulative_Strategy_Returns" (cumulative strat)
    (with_col "Cumulative_Market_Returns" (cumulative daily)
      (with_col "Strategy_Return" strat
        (with_col "Daily_Return" daily df))).

(** The frame after the three calls of one grid cell. *)
Definition cell_frame (p : params) (close : Series) (df : DataFrame) : DataFrame :=
  let n := nrows df in
  let signal := signal_col n (short_window p) (long_window p) close in
  let managed := managed_col n (stop_loss p) (take_profit p) signal close in
  bt_frame close managed
    (with_col "Managed_Position" managed
      (ma_frame (short_window p) (long_window p) close df)).

(** The score of a grid cell on a series of [n] closing prices. *)
Definition score (p : params) (n : nat) (close : Series) : float :=
  default NaN (last (cumulative (strategy_return_col p n close))).

(** ** The vocabulary of the specification *)

Inductive PositionState : Type := Flat | Long.
Inductive Trend : Type := Down | Up.

Definition position_cell (s : PositionState) : float :=
  match s with Flat => zero | Long => one end.

Definition trend_cell (s : Trend) : float :=
  match s with Down => zero | Up => one end.

(** The transition rule of the risk overlay, in the words of the
    specification (section 4.2, steps 1 to 3). *)
Definition spec_transition (stop_loss take_profit : float) (flag : Trend)
    (previous : PositionState) (close prev_close : float) : PositionState :=
  let target := match flag with Up => Long | Down => Flat end in
  match previous with
  | Long =>
      if (close <? prev_close * (one - stop_loss))%F then Flat
      else if (close >? prev_close * (one + take_profit))%F then Flat
      else target
  | Flat => target
  end.

(** The exposure that multiplies the period return. *)
Definition exposure (previous : PositionState) : float :=
  match previous with Long => one | Flat => zero end.


(** The selection rule of the grid search over already computed scores:
    a candidate replaces the best only on a strictly greater score. *)
Fixpoint select_best (scores : list (params * float))
    (best_params : option params) (best_return : float) : option params :=
  match scores with
  | [] => best_params
  | (p, r) :: rest =>
      if (r >? best_return)%F then select_best rest (Some p) r
      else select_best rest best_params best_return
  end.

(** Any sequence of pipeline calls on the shared frame. *)
Inductive call : Type :=
  | CallSignal (short_window long_window : nat)
  | CallRisk (stop_loss take_profit : float)
  | CallBacktest.

Definition run_call (c : call) : M unit :=
  match c with
  | CallSignal s l => apply_moving_average_strategy s l
  | CallRisk sl tp => apply_risk_management sl tp
  | CallBacktest => backtest_strategy
  end.

(** The state that a managed-position cell encodes. *)
Definition state_of_cell (x : float) : PositionState :=
  if (x =? one)%F then Long else Flat.

(** A three-day frame whose last two closes are [prev] and [cur], with the
    trend flag Up on both of these days. *)
Definition three_days (prev cur : Z) : DataFrame :=
  with_col "Signal" [zero; one; one]
    (price_frame [of_Z prev; of_Z prev; of_Z cur]).

(** [df[k].iloc[t]], when the column exists and is long enough. *)
Definition cell (df : DataFrame) (k : string) (t : nat) : option float :=
  cols df !! k ≫= (fun c => c !! t).

(** The trend flag that [apply_moving_average_strategy] leaves at date [t]:
    dates before [short_window] keep the initial 0, later dates compare the
    two moving averages. *)
Definition signal_at (short_window long_window : nat) (close : Series)
    (t : nat) : float :=
  if (t <? short_window)%nat then zero
  else if (window_mean short_window (take (S t) close)
           >? window_mean long_window (take (S t) close))%F
       then one else zero.

(** Signal generation, risk overlay and return computation in sequence. *)
Definition run_pipeline (p : params) : M unit :=
  apply_moving_average_strategy (short_window p) (long_window p);;
  apply_risk_management (stop_loss p) (take_profit p);;
  backtest_strategy.

(** Risk overlay and return computation on a frame that carries flags. *)
Definition run_overlay (stop_loss take_profit : float) : M unit :=
  apply_risk_management stop_loss take_profit;;
  backtest_strategy.

(** A two-day frame that already carries managed positions. *)
Definition two_days_managed : DataFrame :=
  with_col "Managed_Position" [zero; one] (price_frame [of_Z 100; of_Z 110]).

(** The columns that [backtest_strategy] writes. *)
Definition backtest_columns : list string :=
  ["Daily_Return"; "Strategy_Return"; "Cumulative_Market_Returns";
   "Cumulative_Strategy_Returns"]%string.

(** The frame after the runs of a list of grid cells, in order. *)
Definition cells_frame (grid : list params) (close : Series) (df : DataFrame)
    : DataFrame :=
  foldl (fun d p => cell_frame p close d) df grid.

(** The scores of a list of grid cells on a series of [n] closing prices. *)
Definition scored (n : nat) (close : Series) (grid : list params)
    : list (params * float) :=
  map (fun p => (p, score p n close)) grid.

(** The best score that the selection rule ends with. *)
Fixpoint select_return (scores : list (params * float)) (best_return : float)
    : float :=
  match scores with
  | [] => best_return
  | (_, r) :: rest =>
      if (r >? best_return)%F then select_return rest r
      else select_return rest best_return
  end.

(** [best_results] is bound exactly when a best cell has been recorded. *)
Definition ref_of (best_params : option params) : frame_ref :=
  match best_params with Some _ => RFrame | None => RNone end.


(** The returns of a flat market: undefined on the first date, 0 after. *)
Definition flat_returns (n : nat) : Series :=
  match n with
  | 0 => []
  | S k => NaN :: replicate k zero
  end.

(** A computation leaves the closing prices and the index of the frame as
    they were, whether it returns or raises. *)
Definition keeps_close {A} (m : M A) : Prop :=
  forall df,
    cols (m df).2 !! "Close" = cols df !! "Close" /\ nrows (m df).2 = nrows df.

(** The columns that signal generation writes before its slice assignment. *)
Definition early_columns : list string :=
  ["SMA_Short"; "SMA_Long"; "Signal"]%string.

(** The columns that one run of the pipeline writes. *)
Definition derived_columns : list string :=
  ["SMA_Short"; "SMA_Long"; "Signal"; "Position"; "Managed_Position";
   "Daily_Return"; "Strategy_Return"; "Cumulative_Market_Returns";
   "Cumulative_Strategy_Returns"]%string.

(** A finite price other than zero. *)
Definition finite_nonzero (x : float) : bool :=
  match x with S754_finite _ _ _ => true | _ => false end.

(** A frame that carries only a signal column, and no closing prices. *)
Definition signal_frame (signal : Series) : DataFrame :=
  mkFrame (length signal) DatetimeIndex {["Signal"%string := signal]}.

(** The cell that the nested loops of [hyperparameter_tuning] visit last. *)
Definition last_main_cell : params :=
  mkParams 30 100 (decimal 7 100) (decimal 15 100).

(** The cell of the [Position] column for a flag that goes from [prev] to
    [cur]: +1 on Down to Up, -1 on Up to Down, 0 when the flag stays. *)
Definition transition_cell (prev cur : Trend) : float :=
  match prev, cur with
  | Down, Up => of_Z 1
  | Up, Down => of_Z (-1)
  | _, _ => of_Z 0
  end.

(** The flag that a signal cell encodes. *)
Definition trend_of_cell (x : float) : Trend :=
  if (x =? one)%F then Up else Down.

(** What [hyperparameter_tuning] ends with once its loops have completed
    with the best cell [best] and the best score [r]: the metrics printer
    is handed [None] when nothing was selected, and reads the terminal
    compounded return through the index of the frame otherwise. *)
Definition tuning_outcome (i : index_kind) (best : option params) (r : float)
    : result (option params * float) :=
  match best with
  | None => Raise TypeError
  | Some _ =>
      match i with
      | DatetimeIndex => Ok (best, r)
      | RangeIndex => Raise (KeyError (LInt (-1)))
      end
  end.

(** What [print_performance_metrics] does with the terminal value of the
    compounded returns, by the index of the frame. *)
Definition metrics_outcome (i : index_kind) (m : metrics) : result metrics :=
  match i with
  | DatetimeIndex => Ok m
  | RangeIndex => Raise (KeyError (LInt (-1)))
  end.

(** * Properties *)

(** ** Frames and the monad *)

Lemma nrows_with_col k c df : nrows (with_col k c df) = nrows df.
Proof. reflexivity. Qed.

Lemma index_with_col k c df : index (with_col k c df) = index df.
Proof. reflexivity. Qed.

Lemma cols_with_col_eq k c df : cols (with_col k c df) !! k = Some c.
Proof. unfold with_col; simpl. apply lookup_insert_eq. Qed.

Lemma cols_with_col_ne k k' c df :
  k ≠ k' -> cols (with_col k c df) !! k' = cols df !! k'.
Proof. intros Hne. unfold with_col; simpl. by apply lookup_insert_ne. Qed.

Lemma with_col_twice k c c' df :
  with_col k c' (with_col k c df) = with_col k c' df.
Proof. unfold with_col; simpl. by rewrite insert_insert_eq. Qed.

Lemma bind_ok {A B} (m : M A) (k : A -> M B) df a df' :
  m df = (Ok a, df') -> bind m k df = k a df'.
Proof. intros H. unfold bind. by rewrite H. Qed.

Lemma bind_raise {A B} (m : M A) (k : A -> M B) df e df' :
  m df = (Raise e, df') -> bind m k df = (Raise e, df').
Proof. intros H. unfold bind. by rewrite H. Qed.

Lemma getcol_ok k c df : cols df !! k = Some c -> getcol k df = (Ok c, df).
Proof. intros H. unfold getcol. by rewrite H. Qed.

Lemma getcol_missing k df : cols df !! k = None -> getcol k df = (Raise (KeyError k), df).
Proof. intros H. unfold getcol. by rewrite H. Qed.

Lemma iloc_get_ok k c i v df :
  cols df !! k = Some c -> c !! i = Some v -> iloc_get k i df = (Ok v, df).
Proof.
  intros Hk Hi. unfold iloc_get.
  rewrite (bind_ok _ _ _ _ _ (getcol_ok _ _ _ Hk)). by rewrite Hi.
Qed.

Lemma iloc_set_ok k c i v df :
  cols df !! k = Some c -> i < length c ->
  iloc_set k i v df = (Ok tt, with_col k (<[i := v]> c) df).
Proof.
  intros Hk Hi. unfold iloc_set.
  rewrite (bind_ok _ _ _ _ _ (getcol_ok _ _ _ Hk)).
  apply Nat.ltb_lt in Hi. by rewrite Hi.
Qed.

Lemma iloc_last_ok k c v df :
  cols df !! k = Some c -> last c = Some v -> iloc_last k df = (Ok v, df).
Proof.
  intros Hk Hl. unfold iloc_last.
  rewrite (bind_ok _ _ _ _ _ (getcol_ok _ _ _ Hk)). by rewrite Hl.
Qed.

(** Rewriting of column reads through the writes that precede them. *)
Ltac cols_simpl :=
  repeat first
    [ rewrite cols_with_col_eq
    | rewrite cols_with_col_ne by discriminate
    | rewrite nrows_with_col
    | rewrite index_with_col ].

Ltac step_get :=
  erewrite bind_ok; [ | apply getcol_ok; cols_simpl; first [ reflexivity | eassumption ] ].

Ltac step_set :=
  erewrite bind_ok; [ | first [ unfold setcol; reflexivity | unfold setcol_scalar; reflexivity ] ].

(** ** Lengths of the derived columns *)

Lemma length_rolling_mean w s : length (rolling_mean w s) = length s.
Proof. unfold rolling_mean. apply length_imap. Qed.

Lemma length_shift1 s : length (shift1 s) = length s.
Proof. unfold shift1. rewrite length_take. simpl. lia. Qed.

Lemma length_ffill_from v s : length (ffill_from v s) = length s.
Proof. revert v. induction s as [| x r IH]; intros v; simpl; [done | by rewrite IH]. Qed.

Lemma length_pct_change s : length (pct_change s) = length s.
Proof.
  unfold pct_change, ffill.
  rewrite length_map, length_zip_with, length_shift1, length_ffill_from. lia.
Qed.

Lemma length_cumprod_from acc s : length (cumprod_from acc s) = length s.
Proof.
  revert acc. induction s as [| x r IH]; intros acc; simpl; [done |].
  destruct (is_nan x); simpl; by rewrite IH.
Qed.

Lemma length_cumulative s : length (cumulative s) = length s.
Proof. unfold cumulative, cumprod. by rewrite length_map, length_cumprod_from, length_map. Qed.

Lemma length_signal_col n s l close :
  length close = n -> s <= n -> length (signal_col n s l close) = n.
Proof.
  intros H Hs. unfold signal_col, where_1_0.
  rewrite length_app, length_take, length_replicate, length_map, length_zip_with,
    !length_drop, !length_rolling_mean. lia.
Qed.

Lemma length_managed_col n sl tp sg c : length (managed_col n sl tp sg c) = n.
Proof. unfold managed_col. by rewrite length_map, length_seq. Qed.

Lemma length_strategy_return_col p n close :
  length close = n -> length (strategy_return_col p n close) = n.
Proof.
  intros H. unfold strategy_return_col.
  rewrite length_zip_with, length_pct_change, length_shift1, length_managed_col. lia.
Qed.

(** ** What each pipeline function leaves in the frame *)

Lemma ma_prefix_frame s l close df :
  cols df !! "Close" = Some close ->
  (do close <- getcol "Close";
   setcol "SMA_Short" (rolling_mean s close);;
   do close <- getcol "Close";
   setcol "SMA_Long" (rolling_mean l close);;
   setcol_scalar "Signal" zero) df = (Ok tt, ma_raised_frame s l close df).
Proof.
  intros Hc. step_get. step_set. step_get. step_set. reflexivity.
Qed.

Lemma ma_raised_frame_cols s l close df :
  cols (ma_raised_frame s l close df) !! "SMA_Short" = Some (rolling_mean s close)
  /\ cols (ma_raised_frame s l close df) !! "SMA_Long" = Some (rolling_mean l close)
  /\ cols (ma_raised_frame s l close df) !! "Signal" = Some (replicate (nrows df) zero).
Proof. unfold ma_raised_frame. repeat split; cols_simpl; reflexivity. Qed.

Lemma apply_moving_average_strategy_frame s l close df :
  cols df !! "Close" = Some close ->
  length close = nrows df ->
  s <= nrows df ->
  apply_moving_average_strategy s l df = (Ok tt, ma_frame s l close df).
Proof.
  intros Hc Hl Hs. unfold apply_moving_average_strategy.
  destruct (ma_raised_frame_cols s l close df) as (H1 & H2 & H3).
  step_get. step_set. step_get. step_set. step_set.
  change (with_col "Signal" _ _) with (ma_raised_frame s l close df).
  rewrite (bind_ok _ _ _ _ _ (getcol_ok _ _ _ H1)).
  rewrite (bind_ok _ _ _ _ _ (getcol_ok _ _ _ H2)).
  assert (Hchk : ((s <=? length (replicate (nrows df) zero))%nat
                  && (length (where_1_0 (zip_with gtb (drop s (rolling_mean s close))
                                           (drop s (rolling_mean l close))))
                      =? length (replicate (nrows df) zero) - s)%nat) = true).
  { unfold where_1_0.
    rewrite length_replicate, length_map, length_zip_with, !length_drop,
      !length_rolling_mean, Hl.
    apply andb_true_intro. split; [apply Nat.leb_le; lia | apply Nat.eqb_eq; lia]. }
  erewrite bind_ok; cycle 1.
  { unfold setcol_from. rewrite (bind_ok _ _ _ _ _ (getcol_ok _ _ _ H3)).
    rewrite Hchk. unfold setcol. reflexivity. }
  step_get. unfold setcol, ma_frame, signal_col. reflexivity.
Qed.

Lemma apply_moving_average_strategy_raises s l close df :
  cols df !! "Close" = Some close ->
  nrows df < s ->
  apply_moving_average_strategy s l df =
    (Raise ValueError, ma_raised_frame s l close df).
Proof.
  intros Hc Hs. unfold apply_moving_average_strategy.
  destruct (ma_raised_frame_cols s l close df) as (H1 & H2 & H3).
  step_get. step_set. step_get. step_set. step_set.
  change (with_col "Signal" _ _) with (ma_raised_frame s l close df).
  rewrite (bind_ok _ _ _ _ _ (getcol_ok _ _ _ H1)).
  rewrite (bind_ok _ _ _ _ _ (getcol_ok _ _ _ H2)).
  apply bind_raise. unfold setcol_from.
  rewrite (bind_ok _ _ _ _ _ (getcol_ok _ _ _ H3)).
  rewrite length_replicate.
  assert (Hle : (s <=? nrows df)%nat = false) by (apply Nat.leb_gt; lia).
  rewrite Hle. reflexivity.
Qed.

Lemma apply_moving_average_strategy_keyerror s l df :
  cols df !! "Close" = None ->
  apply_moving_average_strategy s l df = (Raise (KeyError "Close"), df).
Proof.
  intros Hc. unfold apply_moving_average_strategy.
  apply bind_raise. by apply getcol_missing.
Qed.

Lemma backtest_strategy_frame close managed df :
  cols df !! "Close" = Some close ->
  cols df !! "Managed_Position" = Some managed ->
  backtest_strategy df = (Ok tt, bt_frame close managed df).
Proof.
  intros Hc Hm. unfold backtest_strategy.
  step_get. step_set. step_get. step_get. step_set. step_get. step_set.
  step_get. unfold setcol, bt_frame, cumulative. reflexivity.
Qed.

Lemma with_col_same k c df : cols df !! k = Some c -> with_col k c df = df.
Proof.
  intros H. destruct df as [n i m]; unfold with_col; simpl in *.
  by rewrite insert_id.
Qed.

Lemma risk_step_frame sl tp i sg c mp df :
  cols df !! "Signal" = Some sg ->
  cols df !! "Close" = Some c ->
  cols df !! "Managed_Position" = Some mp ->
  1 <= i -> i < length sg -> i < length c -> i < length mp ->
  mp !! i = Some zero ->
  risk_step sl tp i df =
    (Ok tt,
     with_col "Managed_Position"
       (<[i := risk_cell sl tp (sg !!! i) (mp !!! (i - 1)) (c !!! i) (c !!! (i - 1))]> mp)
       df).
Proof.
  intros Hsg Hc Hmp Hi Hlsg Hlc Hlmp Hz.
  destruct (lookup_lt_is_Some_2 sg i Hlsg) as [s Hs].
  destruct (lookup_lt_is_Some_2 c i Hlc) as [x Hx].
  destruct (lookup_lt_is_Some_2 c (i - 1)) as [x' Hx']; [lia|].
  destruct (lookup_lt_is_Some_2 mp (i - 1)) as [h Hh]; [lia|].
  rewrite (list_lookup_total_correct _ _ _ Hs), (list_lookup_total_correct _ _ _ Hx),
    (list_lookup_total_correct _ _ _ Hx'), (list_lookup_total_correct _ _ _ Hh).
  assert (Hkeep : forall v, <[i := v]> mp !! (i - 1) = Some h).
  { intros v. rewrite list_lookup_insert_ne by lia. exact Hh. }
  assert (Hlen : forall v, i < length (<[i := v]> mp)).
  { intros v. rewrite length_insert. exact Hlmp. }
  assert (Hid : with_col "Managed_Position" (<[i := zero]> mp) df = df).
  { rewrite list_insert_id by exact Hz. by apply with_col_same. }
  unfold risk_step, risk_cell.
  rewrite (bind_ok _ _ _ _ _ (iloc_get_ok _ _ _ _ _ Hsg Hs)).
  destruct (s =? one)%F eqn:E1; [| destruct (s =? zero)%F eqn:E0].
  - rewrite (bind_ok _ _ _ _ _ (iloc_set_ok _ _ _ one _ Hmp Hlmp)).
    erewrite bind_ok; cycle 1.
    { eapply iloc_get_ok; [apply cols_with_col_eq | apply Hkeep]. }
    destruct (h =? one)%F; [| reflexivity].
    erewrite bind_ok; cycle 1.
    { eapply iloc_get_ok; [cols_simpl; exact Hc | exact Hx]. }
    erewrite bind_ok; cycle 1.
    { eapply iloc_get_ok; [cols_simpl; exact Hc | exact Hx']. }
    destruct (x <? x' * (one - sl))%F; [| destruct (x >? x' * (one + tp))%F].
    + erewrite iloc_set_ok; [| apply cols_with_col_eq | apply Hlen].
      by rewrite with_col_twice, list_insert_insert_eq.
    + erewrite iloc_set_ok; [| apply cols_with_col_eq | apply Hlen].
      by rewrite with_col_twice, list_insert_insert_eq.
    + reflexivity.
  - rewrite (bind_ok _ _ _ _ _ (iloc_set_ok _ _ _ zero _ Hmp Hlmp)).
    rewrite Hid.
    rewrite (bind_ok _ _ _ _ _ (iloc_get_ok _ _ _ _ _ Hmp Hh)).
    destruct (h =? one)%F; [| by rewrite Hid].
    rewrite (bind_ok _ _ _ _ _ (iloc_get_ok _ _ _ _ _ Hc Hx)).
    rewrite (bind_ok _ _ _ _ _ (iloc_get_ok _ _ _ _ _ Hc Hx')).
    destruct (x <? x' * (one - sl))%F; [| destruct (x >? x' * (one + tp))%F].
    + by rewrite (iloc_set_ok _ _ _ zero _ Hmp Hlmp).
    + by rewrite (iloc_set_ok _ _ _ zero _ Hmp Hlmp).
    + by rewrite Hid.
  - erewrite bind_ok; [| reflexivity].
    rewrite (bind_ok _ _ _ _ _ (iloc_get_ok _ _ _ _ _ Hmp Hh)).
    destruct (h =? one)%F; [| by rewrite Hid].
    rewrite (bind_ok _ _ _ _ _ (iloc_get_ok _ _ _ _ _ Hc Hx)).
    rewrite (bind_ok _ _ _ _ _ (iloc_get_ok _ _ _ _ _ Hc Hx')).
    destruct (x <? x' * (one - sl))%F; [| destruct (x >? x' * (one + tp))%F].
    + by rewrite (iloc_set_ok _ _ _ zero _ Hmp Hlmp).
    + by rewrite (iloc_set_ok _ _ _ zero _ Hmp Hlmp).
    + by rewrite Hid.
Qed.

Lemma risk_loop_frame sl tp sg c n m :
  forall a df,
  cols df !! "Signal" = Some sg ->
  cols df !! "Close" = Some c ->
  length sg = n -> length c = n ->
  1 <= a -> a + m <= n ->
  cols df !! "Managed_Position" =
    Some (map (position_at sl tp sg c) (seq 0 a) ++ replicate (n - a) zero) ->
  for_each (seq a m) (risk_step sl tp) df =
    (Ok tt,
     with_col "Managed_Position"
       (map (position_at sl tp sg c) (seq 0 (a + m)) ++ replicate (n - (a + m)) zero)
       df).
Proof.
  induction m as [| m IH]; intros a df Hsg Hc Hlsg Hlc Ha Ham Hmp.
  - simpl. rewrite Nat.add_0_r. unfold ret. f_equal. symmetry. by apply with_col_same.
  - simpl.
    set (pos := position_at sl tp sg c) in *.
    set (mp := map pos (seq 0 a) ++ replicate (n - a) zero) in *.
    assert (Hlen : length mp = n).
    { unfold mp. rewrite length_app, length_map, length_seq, length_replicate. lia. }
    assert (Hz : mp !! a = Some zero).
    { unfold mp. rewrite lookup_app_r; rewrite length_map, length_seq; [| lia].
      apply lookup_replicate_2. lia. }
    assert (Hprev : mp !!! (a - 1) = pos (a - 1)).
    { apply list_lookup_total_correct. unfold mp.
      rewrite lookup_app_l; [| rewrite length_map, length_seq; lia].
      rewrite list_lookup_fmap, lookup_seq_lt by lia. reflexivity. }
    erewrite bind_ok; cycle 1.
    { apply (risk_step_frame sl tp a sg c mp); try assumption; lia. }
    rewrite Hprev.
    replace (risk_cell sl tp (sg !!! a) (pos (a - 1)) (c !!! a) (c !!! (a - 1)))
      with (pos a); cycle 1.
    { destruct a as [| a']; [lia |]. simpl. by rewrite Nat.sub_0_r. }
    rewrite (IH (S a)); cols_simpl; try assumption; try lia.
    + rewrite with_col_twice. by replace (S a + m) with (a + S m) by lia.
    + f_equal. unfold mp.
      rewrite insert_app_r_alt; rewrite length_map, length_seq; [| lia].
      rewrite Nat.sub_diag.
      replace (n - a) with (S (n - S a)) by lia.
      rewrite seq_S, map_app, <- app_assoc. reflexivity.
Qed.

Lemma apply_risk_management_frame sl tp sg c df :
  cols df !! "Signal" = Some sg ->
  cols df !! "Close" = Some c ->
  length sg = nrows df -> length c = nrows df ->
  apply_risk_management sl tp df =
    (Ok tt, with_col "Managed_Position" (managed_col (nrows df) sl tp sg c) df).
Proof.
  intros Hsg Hc Hlsg Hlc. unfold apply_risk_management.
  step_set. erewrite bind_ok; [| reflexivity]. cols_simpl.
  unfold range, managed_col.
  destruct (nrows df) as [| n] eqn:En.
  - simpl. reflexivity.
  - rewrite (risk_loop_frame sl tp sg c (S n) (S n - 1) 1); cols_simpl;
      try assumption; try lia.
    + rewrite with_col_twice. replace (1 + (S n - 1)) with (S n) by lia.
      by rewrite Nat.sub_diag, app_nil_r.
    + simpl. by rewrite Nat.sub_0_r.
Qed.

(** ** One grid cell *)

Lemma ma_frame_close s l close df :
  cols df !! "Close" = Some close ->
  cols (ma_frame s l close df) !! "Close" = Some close.
Proof. intros H. unfold ma_frame, ma_raised_frame. by cols_simpl. Qed.

Lemma ma_frame_signal s l close df :
  cols (ma_frame s l close df) !! "Signal" = Some (signal_col (nrows df) s l close).
Proof. unfold ma_frame. by cols_simpl. Qed.

Lemma nrows_ma_frame s l close df : nrows (ma_frame s l close df) = nrows df.
Proof. reflexivity. Qed.

Lemma overlay_frame sl tp close signal df :
  cols df !! "Close" = Some close ->
  cols df !! "Signal" = Some signal ->
  length close = nrows df ->
  length signal = nrows df ->
  run_overlay sl tp df =
    (Ok tt,
     bt_frame close (managed_col (nrows df) sl tp signal close)
       (with_col "Managed_Position" (managed_col (nrows df) sl tp signal close) df)).
Proof.
  intros Hc Hs Hlc Hls. unfold run_overlay.
  rewrite (bind_ok _ _ _ _ _ (apply_risk_management_frame _ _ _ _ _ Hs Hc Hls Hlc)).
  apply backtest_strategy_frame.
  - rewrite cols_with_col_ne by discriminate. exact Hc.
  - apply cols_with_col_eq.
Qed.

Lemma pipeline_frame p close df :
  cols df !! "Close" = Some close ->
  length close = nrows df ->
  short_window p <= nrows df ->
  run_pipeline p df = (Ok tt, cell_frame p close df).
Proof.
  intros Hc Hl Hs. unfold run_pipeline.
  rewrite (bind_ok _ _ _ _ _ (apply_moving_average_strategy_frame _ _ _ _ Hc Hl Hs)).
  change (run_overlay (stop_loss p) (take_profit p)
            (ma_frame (short_window p) (long_window p) close df)
          = (Ok tt, cell_frame p close df)).
  erewrite overlay_frame; [reflexivity | | | |].
  - by apply ma_frame_close.
  - apply ma_frame_signal.
  - rewrite nrows_ma_frame. exact Hl.
  - rewrite nrows_ma_frame. by apply length_signal_col.
Qed.

Lemma pipeline_raises p close df :
  cols df !! "Close" = Some close ->
  nrows df < short_window p ->
  run_pipeline p df =
    (Raise ValueError, ma_raised_frame (short_window p) (long_window p) close df).
Proof.
  intros Hc Hs. unfold run_pipeline.
  apply bind_raise. by apply apply_moving_average_strategy_raises.
Qed.

Lemma cell_frame_cumulative p close df :
  cols (cell_frame p close df) !! "Cumulative_Strategy_Returns" =
    Some (cumulative (strategy_return_col p (nrows df) close)).
Proof. unfold cell_frame, bt_frame. by cols_simpl. Qed.

Lemma cell_frame_close p close df :
  cols df !! "Close" = Some close ->
  cols (cell_frame p close df) !! "Close" = Some close.
Proof. intros H. unfold cell_frame, bt_frame, ma_frame, ma_raised_frame. by cols_simpl. Qed.

Lemma nrows_cell_frame p close df : nrows (cell_frame p close df) = nrows df.
Proof. reflexivity. Qed.

Lemma index_cell_frame p close df : index (cell_frame p close df) = index df.
Proof. reflexivity. Qed.

Lemma last_is_Some {A} (l : list A) : 0 < length l -> is_Some (last l).
Proof.
  intros H. rewrite last_lookup. apply lookup_lt_is_Some_2. lia.
Qed.

Lemma run_cell_pipeline p df :
  run_cell p df =
    (do _ <- run_pipeline p; iloc_last "Cumulative_Strategy_Returns") df.
Proof.
  unfold run_cell, run_pipeline, bind.
  destruct (apply_moving_average_strategy _ _ df) as [[[]|e] df1]; [| reflexivity].
  destruct (apply_risk_management _ _ df1) as [[[]|e] df2]; [| reflexivity].
  destruct (backtest_strategy df2) as [[[]|e] df3]; reflexivity.
Qed.

Lemma run_cell_frame p close df :
  cols df !! "Close" = Some close ->
  length close = nrows df ->
  short_window p <= nrows df ->
  0 < nrows df ->
  run_cell p df = (Ok (score p (nrows df) close), cell_frame p close df).
Proof.
  intros Hc Hl Hs Hn. rewrite run_cell_pipeline.
  rewrite (bind_ok _ _ _ _ _ (pipeline_frame p close df Hc Hl Hs)).
  destruct (last_is_Some (cumulative (strategy_return_col p (nrows df) close))) as [v Hv].
  { rewrite length_cumulative, length_strategy_return_col; assumption. }
  rewrite (iloc_last_ok _ _ v _ (cell_frame_cumulative p close df) Hv).
  unfold score. by rewrite Hv.
Qed.

Lemma run_cell_empty p close df :
  cols df !! "Close" = Some close ->
  length close = nrows df ->
  short_window p <= nrows df ->
  nrows df = 0 ->
  run_cell p df = (Raise IndexError, cell_frame p close df).
Proof.
  intros Hc Hl Hs Hn. rewrite run_cell_pipeline.
  rewrite (bind_ok _ _ _ _ _ (pipeline_frame p close df Hc Hl Hs)).
  unfold iloc_last, bind, getcol. rewrite cell_frame_cumulative.
  assert (cumulative (strategy_return_col p (nrows df) close) = []) as ->.
  { apply nil_length_inv. rewrite length_cumulative, length_strategy_return_col; assumption. }
  reflexivity.
Qed.

Lemma run_cell_raises p close df :
  cols df !! "Close" = Some close ->
  nrows df < short_window p ->
  run_cell p df =
    (Raise ValueError, ma_raised_frame (short_window p) (long_window p) close df).
Proof.
  intros Hc Hs. rewrite run_cell_pipeline.
  apply bind_raise. by apply pipeline_raises.
Qed.

Lemma run_cell_result p close df :
  cols df !! "Close" = Some close ->
  length close = nrows df ->
  run_cell p df =
    if decide (short_window p <= nrows df) then
      (if decide (nrows df = 0) then Raise IndexError
       else Ok (score p (nrows df) close),
       cell_frame p close df)
    else
      (Raise ValueError,
       ma_raised_frame (short_window p) (long_window p) close df).
Proof.
  intros Hc Hl. destruct (decide (short_window p <= nrows df)) as [Hs | Hs].
  - destruct (decide (nrows df = 0)) as [Hz | Hnz].
    + by apply run_cell_empty.
    + apply run_cell_frame; [assumption | assumption | assumption | lia].
  - apply run_cell_raises; [assumption | lia].
Qed.

(** ** The risk overlay as the state machine of the specification *)

Lemma risk_cell_flag sl tp s h x x' :
  risk_cell sl tp s h x x' = zero \/ risk_cell sl tp s h x x' = one.
Proof.
  unfold risk_cell.
  destruct (s =? one)%F, (h =? one)%F, (x <? x' * (one - sl))%F,
    (x >? x' * (one + tp))%F; auto.
Qed.

Lemma position_at_flag sl tp sg c t :
  position_at sl tp sg c t = zero \/ position_at sl tp sg c t = one.
Proof. destruct t; simpl; [by left | apply risk_cell_flag]. Qed.

Lemma position_cell_state_of_cell x :
  x = zero \/ x = one -> position_cell (state_of_cell x) = x.
Proof. intros [-> | ->]; reflexivity. Qed.

Lemma risk_cell_spec_transition sl tp flag previous x x' :
  risk_cell sl tp (trend_cell flag) (position_cell previous) x x' =
  position_cell (spec_transition sl tp flag previous x x').
Proof.
  unfold risk_cell, spec_transition.
  generalize (x <? x' * (one - sl))%F, (x >? x' * (one + tp))%F.
  intros b1 b2. destruct flag, previous, b1, b2; reflexivity.
Qed.

Lemma position_cell_inj a b : position_cell a = position_cell b -> a = b.
Proof. destruct a, b; intros H; first [reflexivity | discriminate H]. Qed.

(** C1. On a frame that holds closing prices and trend flags,
    [apply_risk_management] returns, and the managed positions it writes form
    a sequence of Flat/Long states in which, at every date [t >= 1], the
    state is the transition of the specification applied to the flag at [t],
    the state at [t-1] and the closes at [t] and [t-1]: Long for Up and Flat
    for Down, forced to Flat from Long when the close falls below
    [close[t-1] * (1 - stop_loss)], and otherwise when it rises above
    [close[t-1] * (1 + take_profit)], the two thresholds being computed and
    compared in doubles as the code does.  With a stop-loss of 0.05 and a
    prior close of 100 held Long, a close of 94 gives Flat and a close of 96
    keeps Long. *)
Theorem risk_overlay_transition :
  forall (df : DataFrame) (close : Series) (flags : list Trend)
         (stop_loss take_profit : float),
    cols df !! "Close" = Some close ->
    cols df !! "Signal" = Some (map trend_cell flags) ->
    length close = nrows df ->
    length flags = nrows df ->
    (exists states : list PositionState,
       apply_risk_management stop_loss take_profit df =
         (Ok tt, with_col "Managed_Position" (map position_cell states) df)
       /\ length states = nrows df
       /\ forall t flag previous,
            1 <= t ->
            flags !! t = Some flag ->
            states !! (t - 1) = Some previous ->
            states !! t =
              Some (spec_transition stop_loss take_profit flag previous
                      (close !!! t) (close !!! (t - 1))))
    /\ cols (apply_risk_management (decimal 5 100) (decimal 10 100)
               (three_days 100 94)).2 !! "Managed_Position"
       = Some [zero; one; zero]
    /\ cols (apply_risk_management (decimal 5 100) (decimal 10 100)
               (three_days 100 96)).2 !! "Managed_Position"
       = Some [zero; one; one].
Proof.
  intros df close flags sl tp Hc Hsg Hlc Hlf.
  split; [| split; vm_compute; reflexivity].
  set (sg := map trend_cell flags) in *.
  set (pos := position_at sl tp sg close).
  exists (map (fun t => state_of_cell (pos t)) (seq 0 (nrows df))).
  assert (Hcells : map position_cell
            (map (fun t => state_of_cell (pos t)) (seq 0 (nrows df)))
          = managed_col (nrows df) sl tp sg close).
  { unfold managed_col. rewrite map_map. apply map_ext. intros t.
    apply position_cell_state_of_cell, position_at_flag. }
  split; [| split].
  - rewrite Hcells. apply apply_risk_management_frame; try assumption.
    unfold sg. by rewrite length_map.
  - by rewrite length_map, length_seq.
  - intros t flag previous Ht Hflag Hprev.
    assert (Hlt : t < nrows df).
    { rewrite <- Hlf. by apply lookup_lt_Some in Hflag. }
    rewrite list_lookup_fmap, lookup_seq_lt in Hprev by lia.
    rewrite list_lookup_fmap, lookup_seq_lt by lia. simpl in *.
    injection Hprev as Hprev. f_equal. apply position_cell_inj.
    rewrite position_cell_state_of_cell by apply position_at_flag.
    rewrite <- risk_cell_spec_transition, <- Hprev.
    rewrite position_cell_state_of_cell by apply position_at_flag.
    destruct t as [| t']; [lia |].
    unfold pos. simpl. rewrite Nat.sub_0_r. f_equal.
    apply list_lookup_total_correct. unfold sg.
    by rewrite list_lookup_fmap, Hflag.
Qed.

(** ** Cells of the derived columns *)

Lemma lookup_rolling_mean w s t :
  t < length s ->
  rolling_mean w s !! t = Some (window_mean w (take (S t) s)).
Proof.
  intros Ht. unfold rolling_mean. rewrite list_lookup_imap.
  destruct (lookup_lt_is_Some_2 s t Ht) as [x ->]. reflexivity.
Qed.

Lemma lookup_signal_col n s l close t :
  length close = n -> t < n ->
  signal_col n s l close !! t = Some (signal_at s l close t).
Proof.
  intros Hl Ht. unfold signal_col, signal_at.
  destruct (t <? s)%nat eqn:E.
  - apply Nat.ltb_lt in E.
    rewrite lookup_app_l by (rewrite length_take, length_replicate; lia).
    rewrite lookup_take_lt by lia. apply lookup_replicate_2. lia.
  - apply Nat.ltb_ge in E.
    rewrite lookup_app_r; rewrite length_take, length_replicate; [| lia].
    replace (s `min` n) with s by lia.
    unfold where_1_0. rewrite list_lookup_fmap, lookup_zip_with, !lookup_drop.
    replace (s + (t - s)) with t by lia.
    rewrite !lookup_rolling_mean by lia. reflexivity.
Qed.

Lemma lookup_managed_col n sl tp sg c t :
  t < n -> managed_col n sl tp sg c !! t = Some (position_at sl tp sg c t).
Proof.
  intros Ht. unfold managed_col. by rewrite list_lookup_fmap, lookup_seq_lt.
Qed.

Lemma lookup_shift1_0 s : 0 < length s -> shift1 s !! 0 = Some NaN.
Proof. intros H. unfold shift1. by rewrite lookup_take_lt. Qed.

Lemma lookup_shift1_S s t : S t < length s -> shift1 s !! S t = s !! t.
Proof. intros H. unfold shift1. by rewrite lookup_take_lt. Qed.

Lemma take_ffill_from n v s : take n (ffill_from v s) = ffill_from v (take n s).
Proof.
  revert n v. induction s as [| x r IH]; intros [| n] v; simpl; try done.
  by rewrite IH.
Qed.

Lemma take_shift1 n s : take n (shift1 s) = shift1 (take n s).
Proof.
  unfold shift1. rewrite take_take, length_take.
  destruct (decide (n <= length s)).
  - replace (n `min` length s) with n by lia.
    destruct n as [| n]; [done |]. simpl. f_equal.
    rewrite take_take. f_equal. lia.
  - replace (n `min` length s) with (length s) by lia.
    by rewrite (take_ge s n) by lia.
Qed.

Lemma take_pct_change n s : take n (pct_change s) = pct_change (take n s).
Proof.
  unfold pct_change, ffill.
  by rewrite <- fmap_take, zip_with_take, take_shift1, take_ffill_from.
Qed.

Lemma lookup_take_S {A} (l : list A) t : take (S t) l !! t = l !! t.
Proof. apply lookup_take_lt. lia. Qed.

(** A cell of [pct_change] only sees the closes up to its own date. *)
Lemma lookup_pct_change_prefix s1 s2 t :
  take (S t) s1 = take (S t) s2 -> pct_change s1 !! t = pct_change s2 !! t.
Proof.
  intros H.
  rewrite <- (lookup_take_S (pct_change s1)), <- (lookup_take_S (pct_change s2)).
  by rewrite !take_pct_change, H.
Qed.

(** The period return is the quotient of two consecutive padded closes,
    minus one. *)
Lemma lookup_pct_change s t a b :
  ffill s !! t = Some a -> ffill s !! S t = Some b ->
  pct_change s !! S t = Some (b / a - one)%F.
Proof.
  intros Ha Hb.
  assert (Hlt : S t < length (ffill s)) by (by apply lookup_lt_Some in Hb).
  unfold pct_change.
  rewrite list_lookup_fmap, lookup_zip_with, Hb, lookup_shift1_S, Ha by exact Hlt.
  reflexivity.
Qed.

Lemma ffill_from_valid v s :
  (forall x, x ∈ s -> is_nan x = false) -> ffill_from v s = s.
Proof.
  revert v. induction s as [| y r IH]; intros v Hall; [reflexivity |].
  cbn [ffill_from]. rewrite (Hall y) by apply list_elem_of_here.
  f_equal. apply IH. intros x Hx. apply Hall. by apply list_elem_of_further.
Qed.

Lemma take_prefix_le {A} (l1 l2 : list A) i t :
  i <= t -> take (S t) l1 = take (S t) l2 -> take (S i) l1 = take (S i) l2.
Proof.
  intros Hi H.
  replace (S i) with (S i `min` S t) by lia.
  by rewrite <- !take_take, H.
Qed.

Lemma signal_at_prefix s l c1 c2 t :
  take (S t) c1 = take (S t) c2 -> signal_at s l c1 t = signal_at s l c2 t.
Proof. intros H. unfold signal_at. by rewrite H. Qed.

Lemma lookup_total_prefix (c1 c2 : Series) i t :
  i <= t -> take (S t) c1 = take (S t) c2 -> c1 !!! i = c2 !!! i.
Proof.
  intros Hi H. rewrite !list_lookup_total_alt.
  rewrite <- (lookup_take_lt c1 (S t) i), <- (lookup_take_lt c2 (S t) i) by lia.
  by rewrite H.
Qed.

(** A managed position only sees the flags and closes up to its own date. *)
Lemma position_at_prefix sl tp sg1 sg2 c1 c2 t :
  (forall i, i <= t -> sg1 !!! i = sg2 !!! i) ->
  (forall i, i <= t -> c1 !!! i = c2 !!! i) ->
  position_at sl tp sg1 c1 t = position_at sl tp sg2 c2 t.
Proof.
  induction t as [| t IH]; intros Hsg Hc; simpl; [done |].
  rewrite IH by (intros; first [apply Hsg | apply Hc]; lia).
  rewrite (Hsg (S t)), (Hc (S t)), (Hc t) by lia. reflexivity.
Qed.

(** ** Strategy returns *)

Lemma cell_frame_cells p close df :
  cols df !! "Close" = Some close ->
  let out := cell_frame p close df in
  let n := nrows df in
  let signal := signal_col n (short_window p) (long_window p) close in
  cols out !! "Close" = Some close
  /\ cols out !! "Signal" = Some signal
  /\ cols out !! "Managed_Position" =
       Some (managed_col n (stop_loss p) (take_profit p) signal close)
  /\ cols out !! "Daily_Return" = Some (pct_change close)
  /\ cols out !! "Strategy_Return" = Some (strategy_return_col p n close)
  /\ cols out !! "Cumulative_Market_Returns" = Some (cumulative (pct_change close))
  /\ cols out !! "Cumulative_Strategy_Returns" =
       Some (cumulative (strategy_return_col p n close)).
Proof.
  intros Hc. unfold cell_frame, bt_frame, ma_frame, ma_raised_frame, strategy_return_col.
  repeat split; by cols_simpl.
Qed.

Lemma cell_lookup df k c t : cols df !! k = Some c -> cell df k t = c !! t.
Proof. intros H. unfold cell. by rewrite H. Qed.

Lemma exposure_position_cell s : exposure s = position_cell s.
Proof. by destruct s. Qed.

Lemma signal_col_total n s l close t :
  length close = n -> t < n ->
  signal_col n s l close !!! t = signal_at s l close t.
Proof.
  intros Hl Ht. apply list_lookup_total_correct. by apply lookup_signal_col.
Qed.

(** The cells that the return computation writes at a date [t >= 1]. *)
Lemma return_cells sl tp signal close n t :
  length close = n -> 1 <= t -> t < n ->
  exists (a b : float) (previous : PositionState),
    ffill close !! (t - 1) = Some a
    /\ ffill close !! t = Some b
    /\ pct_change close !! t = Some (b / a - one)%F
    /\ managed_col n sl tp signal close !! (t - 1) = Some (position_cell previous)
    /\ zip_with F64.mul (pct_change close) (shift1 (managed_col n sl tp signal close)) !! t
       = Some ((b / a - one) * exposure previous)%F.
Proof.
  intros Hl Ht Hlt. destruct t as [| t]; [lia |].
  replace (S t - 1) with t by lia.
  destruct (lookup_lt_is_Some_2 (ffill close) t) as [a Ha].
  { unfold ffill. rewrite length_ffill_from. lia. }
  destruct (lookup_lt_is_Some_2 (ffill close) (S t)) as [b Hb].
  { unfold ffill. rewrite length_ffill_from. lia. }
  set (pos := position_at sl tp signal close).
  exists a, b, (state_of_cell (pos t)).
  rewrite position_cell_state_of_cell by apply position_at_flag.
  pose proof (lookup_pct_change close t a b Ha Hb) as Hr.
  split; [exact Ha |]. split; [exact Hb |]. split; [exact Hr |].
  split; [apply lookup_managed_col; lia |].
  rewrite lookup_zip_with, Hr.
  rewrite lookup_shift1_S by (rewrite length_managed_col; lia).
  rewrite lookup_managed_col by lia.
  rewrite exposure_position_cell.
  rewrite position_cell_state_of_cell by apply position_at_flag.
  reflexivity.
Qed.

(** The strategy return at [t] is fixed by the flags and closes up to [t]. *)
Lemma overlay_return_prefix sl tp n1 n2 sg1 sg2 c1 c2 t :
  t < n1 -> t < n2 ->
  take (S t) c1 = take (S t) c2 ->
  (forall i, i <= t -> sg1 !!! i = sg2 !!! i) ->
  zip_with F64.mul (pct_change c1) (shift1 (managed_col n1 sl tp sg1 c1)) !! t
  = zip_with F64.mul (pct_change c2) (shift1 (managed_col n2 sl tp sg2 c2)) !! t.
Proof.
  intros Ht1 Ht2 Hpre Hsg.
  rewrite !lookup_zip_with, (lookup_pct_change_prefix c1 c2 t Hpre).
  destruct (pct_change c2 !! t) as [r |]; [simpl | done].
  destruct t as [| t].
  - rewrite !lookup_shift1_0 by (rewrite length_managed_col; lia). done.
  - rewrite !lookup_shift1_S by (rewrite length_managed_col; lia).
    rewrite !lookup_managed_col by lia. simpl. do 2 f_equal.
    apply position_at_prefix.
    + intros i Hi. apply Hsg. lia.
    + intros i Hi. apply lookup_total_prefix with (t := S t); [lia | done].
Qed.

Lemma strategy_return_prefix p n1 n2 c1 c2 t :
  length c1 = n1 -> length c2 = n2 -> t < n1 -> t < n2 ->
  take (S t) c1 = take (S t) c2 ->
  strategy_return_col p n1 c1 !! t = strategy_return_col p n2 c2 !! t.
Proof.
  intros Hl1 Hl2 Ht1 Ht2 Hpre. unfold strategy_return_col.
  apply overlay_return_prefix; try assumption.
  intros i Hi. rewrite !signal_col_total by lia.
  apply signal_at_prefix. by apply take_prefix_le with (t := t).
Qed.

Lemma same_cell {A} (o : option A) :
  is_Some o -> exists v, o = Some v /\ o = Some v.
Proof. intros [v ->]. exists v. split; reflexivity. Qed.

(** C2. After the risk overlay and the return computation, the strategy
    return at every date [t >= 1] is the period price return at [t] - the
    quotient of the closes of [t] and [t-1], minus one, on closes padded
    forward over missing values, which are the closes themselves when none
    is missing - multiplied by 1 when the managed position at [t-1] is Long
    and by 0 when it is Flat.  For two frames whose closes and flags agree up
    to and including [t], the strategy return at [t] is the same cell,
    whatever the later observations are.  The same holds for the whole
    pipeline, whose flags are derived from the closes, on every run that
    completes (a short window that does not exceed the number of rows). *)
Theorem strategy_return_no_lookahead :
  (forall (stop_loss take_profit : float) (df : DataFrame) (close signal : Series),
     cols df !! "Close" = Some close ->
     cols df !! "Signal" = Some signal ->
     length close = nrows df ->
     length signal = nrows df ->
     exists out : DataFrame,
       run_overlay stop_loss take_profit df = (Ok tt, out)
       /\ forall t, 1 <= t -> t < nrows df ->
            exists (a b : float) (previous : PositionState),
              ffill close !! (t - 1) = Some a
              /\ ffill close !! t = Some b
              /\ cell out "Daily_Return" t = Some (b / a - one)%F
              /\ cell out "Managed_Position" (t - 1) = Some (position_cell previous)
              /\ cell out "Strategy_Return" t
                 = Some ((b / a - one) * exposure previous)%F)
  /\ (forall close : Series,
        (forall x, x ∈ close -> is_nan x = false) -> ffill close = close)
  /\ (forall (stop_loss take_profit : float) (df1 df2 : DataFrame)
             (close1 close2 signal1 signal2 : Series) (t : nat),
        cols df1 !! "Close" = Some close1 -> cols df1 !! "Signal" = Some signal1 ->
        length close1 = nrows df1 -> length signal1 = nrows df1 ->
        cols df2 !! "Close" = Some close2 -> cols df2 !! "Signal" = Some signal2 ->
        length close2 = nrows df2 -> length signal2 = nrows df2 ->
        t < nrows df1 -> t < nrows df2 ->
        take (S t) close1 = take (S t) close2 ->
        take (S t) signal1 = take (S t) signal2 ->
        exists v : float,
          cell (run_overlay stop_loss take_profit df1).2 "Strategy_Return" t = Some v
          /\ cell (run_overlay stop_loss take_profit df2).2 "Strategy_Return" t = Some v)
  /\ (forall (p : params) (df1 df2 : DataFrame) (close1 close2 : Series),
        cols df1 !! "Close" = Some close1 -> length close1 = nrows df1 ->
        cols df2 !! "Close" = Some close2 -> length close2 = nrows df2 ->
        short_window p <= nrows df1 -> short_window p <= nrows df2 ->
        exists out1 out2 : DataFrame,
          run_pipeline p df1 = (Ok tt, out1)
          /\ run_pipeline p df2 = (Ok tt, out2)
          /\ (forall t, 1 <= t -> t < nrows df1 ->
                exists (a b : float) (previous : PositionState),
                  ffill close1 !! (t - 1) = Some a
                  /\ ffill close1 !! t = Some b
                  /\ cell out1 "Daily_Return" t = Some (b / a - one)%F
                  /\ cell out1 "Managed_Position" (t - 1)
                     = Some (position_cell previous)
                  /\ cell out1 "Strategy_Return" t
                     = Some ((b / a - one) * exposure previous)%F)
          /\ (forall t, t < nrows df1 -> t < nrows df2 ->
                take (S t) close1 = take (S t) close2 ->
                exists v : float,
                  cell out1 "Strategy_Return" t = Some v
                  /\ cell out2 "Strategy_Return" t = Some v)).
Proof.
  assert (Hbt : forall close managed df,
            cols (bt_frame close managed
                    (with_col "Managed_Position" managed df)) !! "Daily_Return"
            = Some (pct_change close)
            /\ cols (bt_frame close managed
                       (with_col "Managed_Position" managed df)) !! "Managed_Position"
               = Some managed
            /\ cols (bt_frame close managed
                       (with_col "Managed_Position" managed df)) !! "Strategy_Return"
               = Some (zip_with F64.mul (pct_change close) (shift1 managed))).
  { intros close managed df. unfold bt_frame. repeat split; cols_simpl; reflexivity. }
  split; [| split; [| split]].
  - intros sl tp df close signal Hc Hs Hlc Hls.
    eexists. split; [apply overlay_frame; eassumption |].
    intros t Ht Hlt.
    destruct (Hbt close (managed_col (nrows df) sl tp signal close) df)
      as (Hd & Hm & Hr).
    rewrite (cell_lookup _ _ _ _ Hd), (cell_lookup _ _ _ _ Hm),
      (cell_lookup _ _ _ _ Hr).
    apply return_cells; assumption.
  - intros close Hall. unfold ffill. by apply ffill_from_valid.
  - intros sl tp df1 df2 c1 c2 sg1 sg2 t Hc1 Hs1 Hlc1 Hls1 Hc2 Hs2 Hlc2 Hls2
      Ht1 Ht2 Hpre Hsg.
    rewrite (overlay_frame sl tp c1 sg1 df1 Hc1 Hs1 Hlc1 Hls1).
    rewrite (overlay_frame sl tp c2 sg2 df2 Hc2 Hs2 Hlc2 Hls2).
    cbn [snd].
    destruct (Hbt c1 (managed_col (nrows df1) sl tp sg1 c1) df1) as (_ & _ & Hr1).
    destruct (Hbt c2 (managed_col (nrows df2) sl tp sg2 c2) df2) as (_ & _ & Hr2).
    rewrite (cell_lookup _ _ _ _ Hr1), (cell_lookup _ _ _ _ Hr2).
    rewrite (overlay_return_prefix sl tp (nrows df1) (nrows df2) sg1 sg2 c1 c2 t
               Ht1 Ht2 Hpre).
    + apply same_cell, lookup_lt_is_Some_2.
      rewrite length_zip_with, length_pct_change, length_shift1, length_managed_col.
      lia.
    + intros i Hi. by apply lookup_total_prefix with (t := t).
  - intros p df1 df2 c1 c2 Hc1 Hl1 Hc2 Hl2 Hs1 Hs2.
    exists (cell_frame p c1 df1), (cell_frame p c2 df2).
    split; [by apply pipeline_frame |]. split; [by apply pipeline_frame |].
    destruct (cell_frame_cells p c1 df1 Hc1) as (_ & _ & Hm1 & Hd1 & Hr1 & _).
    destruct (cell_frame_cells p c2 df2 Hc2) as (_ & _ & _ & _ & Hr2 & _).
    split.
    + intros t Ht Hlt.
      rewrite (cell_lookup _ _ _ _ Hd1), (cell_lookup _ _ _ _ Hm1),
        (cell_lookup _ _ _ _ Hr1).
      apply return_cells; assumption.
    + intros t Ht1 Ht2 Hpre.
      rewrite (cell_lookup _ _ _ _ Hr1), (cell_lookup _ _ _ _ Hr2).
      rewrite (strategy_return_prefix p _ _ c1 c2 t Hl1 Hl2 Ht1 Ht2 Hpre).
      apply same_cell, lookup_lt_is_Some_2.
      rewrite length_strategy_return_col; assumption.
Qed.

(** ** Effects of the return computation *)

(** C3, amended. [backtest_strategy] returns on every frame that holds the
    [Close] and [Managed_Position] columns; it writes its four result columns
    into that same frame and leaves the row count and every other column
    (the closing prices and the positions among them) as they were; the
    four columns it writes are functions of the closing prices and the
    positions alone. *)
Theorem backtest_strategy_frame_effect :
  forall (df : DataFrame) (close managed : Series),
    cols df !! "Close" = Some close ->
    cols df !! "Managed_Position" = Some managed ->
    exists out : DataFrame,
      backtest_strategy df = (Ok tt, out)
      /\ nrows out = nrows df
      /\ (forall k, k ∉ backtest_columns -> cols out !! k = cols df !! k)
      /\ cols out !! "Close" = Some close
      /\ cols out !! "Managed_Position" = Some managed
      /\ cols out !! "Daily_Return" = Some (pct_change close)
      /\ cols out !! "Strategy_Return"
         = Some (zip_with F64.mul (pct_change close) (shift1 managed))
      /\ cols out !! "Cumulative_Market_Returns"
         = Some (cumulative (pct_change close))
      /\ cols out !! "Cumulative_Strategy_Returns"
         = Some (cumulative (zip_with F64.mul (pct_change close) (shift1 managed))).
Proof.
  intros df close managed Hc Hm.
  exists (bt_frame close managed df).
  split; [apply backtest_strategy_frame; assumption |].
  split; [reflexivity |].
  split.
  { intros k Hk. unfold backtest_columns in Hk.
    rewrite !not_elem_of_cons in Hk. destruct Hk as (H1 & H2 & H3 & H4 & _).
    unfold bt_frame.
    rewrite !cols_with_col_ne by (intros E; symmetry in E; contradiction).
    reflexivity. }
  unfold bt_frame.
  repeat split; cols_simpl; first [assumption | reflexivity].
Qed.

(** ** Order on doubles *)

Lemma ltb_irrefl x : (x <? x)%F = false.
Proof.
  destruct x as [s | s | | s m e]; try (destruct s; reflexivity); try reflexivity.
  unfold ltb, SFltb, SFcompare. rewrite Z.compare_refl.
  change (Pos.compare_cont Eq m m) with (Pos.compare m m). rewrite Pos.compare_refl.
  destruct s; reflexivity.
Qed.

(** Case analysis on the sign, exponent and mantissa of finite doubles. *)
Ltac float_cases :=
  unfold gtb, ltb, eqb, SFltb, SFeqb, SFcompare;
  repeat match goal with
  | |- context [Pos.compare_cont Eq ?a ?b] =>
      change (Pos.compare_cont Eq a b) with (Pos.compare a b)
  end;
  repeat match goal with
  | |- context [Z.compare ?a ?b] => destruct (Z.compare_spec a b)
  | |- context [Pos.compare ?a ?b] => destruct (Pos.compare_spec a b)
  end; simpl; try congruence; try lia.

Lemma ltb_trans x y z :
  (x <? y)%F = true -> (y <? z)%F = true -> (x <? z)%F = true.
Proof.
  destruct x as [[]|[]| |[] m1 e1], y as [[]|[]| |[] m2 e2], z as [[]|[]| |[] m3 e3];
    try reflexivity; try discriminate; float_cases.
Qed.

Lemma ltb_asym x y : (x <? y)%F = true -> (y <? x)%F = false.
Proof.
  intros H. apply not_true_is_false. intros H'.
  pose proof (ltb_trans _ _ _ H H') as E. by rewrite ltb_irrefl in E.
Qed.

Lemma eqb_ltb_l x y z :
  (x =? y)%F = true -> (x <? z)%F = true -> (y <? z)%F = true.
Proof.
  destruct x as [[]|[]| |[] m1 e1], y as [[]|[]| |[] m2 e2], z as [[]|[]| |[] m3 e3];
    try reflexivity; try discriminate; float_cases.
Qed.

Lemma eqb_ltb_r x y z :
  (x =? y)%F = true -> (z <? x)%F = true -> (z <? y)%F = true.
Proof.
  destruct x as [[]|[]| |[] m1 e1], y as [[]|[]| |[] m2 e2], z as [[]|[]| |[] m3 e3];
    try reflexivity; try discriminate; float_cases.
Qed.

Lemma eqb_sym x y : (x =? y)%F = (y =? x)%F.
Proof.
  destruct x as [[]|[]| |[] m1 e1], y as [[]|[]| |[] m2 e2];
    try reflexivity; float_cases.
Qed.

Lemma gtb_irrefl x : (x >? x)%F = false.
Proof. apply ltb_irrefl. Qed.

Lemma gtb_trans x y z :
  (x >? y)%F = true -> (y >? z)%F = true -> (x >? z)%F = true.
Proof. unfold gtb. intros H1 H2. exact (ltb_trans _ _ _ H2 H1). Qed.

Lemma gtb_asym x y : (x >? y)%F = true -> (y >? x)%F = false.
Proof. unfold gtb. apply ltb_asym. Qed.

(** A score that does not beat the bar cannot beat one that does. *)
Lemma gtb_blocked r r2 br :
  (r >? br)%F = false -> (r2 >? br)%F = true -> (r >? r2)%F = false.
Proof.
  intros H1 H2. apply not_true_is_false. intros H.
  by rewrite (gtb_trans _ _ _ H H2) in H1.
Qed.

(** Nor can it tie with one. *)
Lemma eqb_blocked r r2 br :
  (r >? br)%F = false -> (r2 >? br)%F = true -> (r =? r2)%F = false.
Proof.
  intros H1 H2. apply not_true_is_false. intros H.
  rewrite eqb_sym in H. unfold gtb in *.
  by rewrite (eqb_ltb_r _ _ _ H H2) in H1.
Qed.

Lemma gtb_not_eqb x y : (x >? y)%F = true -> (y =? x)%F = false.
Proof.
  intros H. apply not_true_is_false. intros E.
  unfold gtb in H. pose proof (eqb_ltb_l _ _ _ E H) as H'.
  by rewrite ltb_irrefl in H'.
Qed.


Lemma gtb_NaN_r x : (x >? NaN)%F = false.
Proof. reflexivity. Qed.

Lemma gtb_NaN_l x : (NaN >? x)%F = false.
Proof. destruct x as [[]|[]| |[] m e]; reflexivity. Qed.

(** ** The selection rule *)

(** Either no score beats the initial bar and the initial best is kept, or
    the selected cell is the first one, in enumeration order, that carries
    the greatest score. *)
Lemma select_best_spec (scores : list (params * float)) :
  forall (bp : option params) (br : float),
    (select_best scores bp br = bp
     /\ forall j q r', scores !! j = Some (q, r') -> (r' >? br)%F = false)
    \/ (exists i p r,
          scores !! i = Some (p, r)
          /\ select_best scores bp br = Some p
          /\ (r >? br)%F = true
          /\ (forall j q r', scores !! j = Some (q, r') -> (r' >? r)%F = false)
          /\ (forall j q r', j < i -> scores !! j = Some (q, r') ->
                (r' =? r)%F = false)).
Proof.
  induction scores as [| [p r] rest IH]; intros bp br.
  - left. split; [reflexivity |]. intros j q r' H. discriminate H.
  - simpl. destruct (r >? br)%F eqn:Hr.
    + right. destruct (IH (Some p) r) as [[Hsel Hall] | (i & p2 & r2 & Hi & Hsel & Hgt & Hmax & Hfirst)].
      * exists 0, p, r. repeat split; try assumption; try reflexivity.
        -- intros [| j] q r' Hj; simpl in Hj.
           ++ injection Hj as _ <-. apply gtb_irrefl.
           ++ by apply (Hall j q).
        -- intros j q r' Hj. lia.
      * exists (S i), p2, r2. repeat split; try assumption.
        -- by apply gtb_trans with r.
        -- intros [| j] q r' Hj; simpl in Hj.
           ++ injection Hj as _ <-. by apply gtb_asym.
           ++ by apply (Hmax j q).
        -- intros [| j] q r' Hlt Hj; simpl in Hj.
           ++ injection Hj as _ <-. by apply gtb_not_eqb.
           ++ apply (Hfirst j q); [lia | assumption].
    + destruct (IH bp br) as [[Hsel Hall] | (i & p2 & r2 & Hi & Hsel & Hgt & Hmax & Hfirst)].
      * left. split; [assumption |].
        intros [| j] q r' Hj; simpl in Hj.
        -- by injection Hj as _ <-.
        -- by apply (Hall j q).
      * right. exists (S i), p2, r2. repeat split; try assumption.
        -- intros [| j] q r' Hj; simpl in Hj.
           ++ injection Hj as _ <-. by apply gtb_blocked with br.
           ++ by apply (Hmax j q).
        -- intros [| j] q r' Hlt Hj; simpl in Hj.
           ++ injection Hj as _ <-. by apply eqb_blocked with br.
           ++ apply (Hfirst j q); [lia | assumption].
Qed.

Lemma select_best_none scores :
  forall bp br,
    (forall j q r, scores !! j = Some (q, r) -> (r >? br)%F = false) ->
    select_best scores bp br = bp.
Proof.
  induction scores as [| [p r] rest IH]; intros bp br Hall; [reflexivity |].
  cbn [select_best]. rewrite (Hall 0 p r) by reflexivity.
  apply IH. intros j q r' Hj. apply (Hall (S j) q r'). exact Hj.
Qed.

Lemma select_pair_spec scores :
  forall bp br,
    (select_best scores bp br = bp /\ select_return scores br = br)
    \/ (exists i p r,
          scores !! i = Some (p, r)
          /\ select_best scores bp br = Some p
          /\ select_return scores br = r).
Proof.
  induction scores as [| [p r] rest IH]; intros bp br; [left; split; reflexivity |].
  cbn [select_best select_return]. destruct (r >? br)%F.
  - right. destruct (IH (Some p) r) as [[Hb Hr] | (i & q & r' & Hi & Hb & Hr)].
    + exists 0, p, r. split; [reflexivity |]. split; assumption.
    + exists (S i), q, r'. split; [exact Hi |]. split; assumption.
  - destruct (IH bp br) as [[Hb Hr] | (i & q & r' & Hi & Hb & Hr)].
    + left. split; assumption.
    + right. exists (S i), q, r'. split; [exact Hi |]. split; assumption.
Qed.

(** ** The grid-search loops on the shared frame *)

Lemma cells_frame_close grid close :
  forall df, cols df !! "Close" = Some close ->
  cols (cells_frame grid close df) !! "Close" = Some close.
Proof.
  induction grid as [| p rest IH]; intros df H; simpl; [assumption |].
  apply IH. apply cell_frame_close. assumption.
Qed.

Lemma nrows_cells_frame grid close :
  forall df, nrows (cells_frame grid close df) = nrows df.
Proof.
  induction grid as [| p rest IH]; intros df; simpl; [reflexivity |].
  rewrite IH. reflexivity.
Qed.

Lemma index_cells_frame grid close :
  forall df, index (cells_frame grid close df) = index df.
Proof.
  induction grid as [| p rest IH]; intros df; simpl; [reflexivity |].
  rewrite IH. reflexivity.
Qed.

Lemma tune_loop_frame close n grid :
  forall df bp br,
    cols df !! "Close" = Some close ->
    length close = n -> nrows df = n -> 0 < n ->
    Forall (fun p => short_window p <= n) grid ->
    tune_loop grid bp br df =
      (Ok (select_best (scored n close grid) bp br), cells_frame grid close df).
Proof.
  induction grid as [| p rest IH]; intros df bp br Hc Hl Hn Hpos Hall.
  - reflexivity.
  - apply Forall_cons in Hall as [Hp Hrest]. simpl.
    rewrite (bind_ok _ _ _ _ _
               (run_cell_frame p close df Hc ltac:(lia) ltac:(lia) ltac:(lia))).
    rewrite Hn.
    destruct (score p n close >? br)%F.
    + apply IH; try assumption. apply cell_frame_close. assumption.
    + apply IH; try assumption. apply cell_frame_close. assumption.
Qed.

Lemma main_loop_frame close n grid :
  forall df bp br,
    cols df !! "Close" = Some close ->
    length close = n -> nrows df = n -> 0 < n ->
    Forall (fun p => short_window p <= n) grid ->
    main_loop grid bp br (ref_of bp) df =
      (Ok (select_best (scored n close grid) bp br,
           select_return (scored n close grid) br,
           ref_of (select_best (scored n close grid) bp br)),
       cells_frame grid close df).
Proof.
  induction grid as [| p rest IH]; intros df bp br Hc Hl Hn Hpos Hall.
  - reflexivity.
  - apply Forall_cons in Hall as [Hp Hrest]. simpl.
    rewrite (bind_ok _ _ _ _ _
               (run_cell_frame p close df Hc ltac:(lia) ltac:(lia) ltac:(lia))).
    rewrite Hn.
    destruct (score p n close >? br)%F.
    + apply (IH _ (Some p)); try assumption. apply cell_frame_close. assumption.
    + apply IH; try assumption. apply cell_frame_close. assumption.
Qed.


Lemma main_loop_raises close n grid :
  forall df bp br ref,
    cols df !! "Close" = Some close ->
    length close = n -> nrows df = n ->
    Exists (fun p => n < short_window p) grid ->
    0 < n \/ Forall (fun p => 0 < short_window p) grid ->
    exists out, main_loop grid bp br ref df = (Raise ValueError, out).
Proof.
  induction grid as [| p rest IH]; intros df bp br ref Hc Hl Hn Hex Hpos.
  - by apply Exists_nil in Hex.
  - cbn [main_loop]. unfold bind at 1.
    rewrite (run_cell_result p close df Hc ltac:(lia)). rewrite Hn.
    destruct (decide (short_window p <= n)) as [Hp | Hp]; [| eauto].
    assert (Hnz : n <> 0).
    { destruct Hpos as [H | H]; [lia |]. apply Forall_cons in H as [H _]. lia. }
    destruct (decide (n = 0)) as [Hz | _]; [contradiction |].
    apply Exists_cons in Hex as [Hex | Hex]; [lia |].
    assert (Hpos' : 0 < n \/ Forall (fun p => 0 < short_window p) rest).
    { left. lia. }
    destruct (score p n close >? br)%F;
      apply IH; try assumption; by apply cell_frame_close.
Qed.

Lemma elem_of_ParameterGrid_cells p sws lws sls tps :
  p ∈ ParameterGrid_cells sws lws sls tps <->
  short_window p ∈ sws /\ long_window p ∈ lws
  /\ stop_loss p ∈ sls /\ take_profit p ∈ tps.
Proof.
  unfold ParameterGrid_cells. split.
  - intros H.
    apply list_elem_of_bind in H as (lw & H & Hlw).
    apply list_elem_of_bind in H as (sw & H & Hsw).
    apply list_elem_of_bind in H as (sl & H & Hsl).
    apply list_elem_of_bind in H as (tp & H & Htp).
    apply list_elem_of_singleton in H. subst p. simpl. auto.
  - intros (Hsw & Hlw & Hsl & Htp). destruct p as [sw lw sl tp]. simpl in *.
    apply list_elem_of_bind. exists lw. split; [| assumption].
    apply list_elem_of_bind. exists sw. split; [| assumption].
    apply list_elem_of_bind. exists sl. split; [| assumption].
    apply list_elem_of_bind. exists tp. split; [| assumption].
    apply list_elem_of_singleton. reflexivity.
Qed.

Lemma ParameterGrid_ok sws lws sls tps df :
  sws <> [] -> lws <> [] -> sls <> [] -> tps <> [] ->
  ParameterGrid sws lws sls tps df = (Ok (ParameterGrid_cells sws lws sls tps), df).
Proof.
  intros H1 H2 H3 H4. unfold ParameterGrid.
  destruct sws; [congruence |]. destruct lws; [congruence |].
  destruct sls; [congruence |]. destruct tps; [congruence |]. reflexivity.
Qed.


Lemma ParameterGrid_cells_windows sws lws sls tps n :
  Forall (fun s => s <= n) sws ->
  Forall (fun p => short_window p <= n) (ParameterGrid_cells sws lws sls tps).
Proof.
  intros Hall. apply Forall_forall. intros p Hp.
  apply elem_of_ParameterGrid_cells in Hp as (Hs & _).
  rewrite Forall_forall in Hall. by apply Hall.
Qed.

Lemma tune_hyperparameters_frame close df sws lws sls tps :
  cols df !! "Close" = Some close ->
  length close = nrows df -> 0 < nrows df ->
  sws <> [] -> lws <> [] -> sls <> [] -> tps <> [] ->
  Forall (fun s => s <= nrows df) sws ->
  tune_hyperparameters sws lws sls tps df =
    (Ok (select_best
           (scored (nrows df) close (ParameterGrid_cells sws lws sls tps)) None NInf),
     cells_frame (ParameterGrid_cells sws lws sls tps) close df).
Proof.
  intros Hc Hl Hpos H1 H2 H3 H4 Hall. unfold tune_hyperparameters.
  rewrite (bind_ok _ _ _ _ _ (ParameterGrid_ok sws lws sls tps df H1 H2 H3 H4)).
  apply (tune_loop_frame close (nrows df)); try assumption; try reflexivity.
  by apply ParameterGrid_cells_windows.
Qed.


Lemma nonempty_elem {A} (l : list A) : l <> [] -> exists x, x ∈ l.
Proof. destruct l as [| x r]; [congruence |]. exists x. apply list_elem_of_here. Qed.


Lemma scored_lookup n close grid i p r :
  scored n close grid !! i = Some (p, r) ->
  grid !! i = Some p /\ r = score p n close.
Proof.
  unfold scored. rewrite list_lookup_fmap.
  destruct (grid !! i) as [q |]; simpl; [| discriminate].
  intros H. injection H as -> <-. auto.
Qed.

Lemma scored_lookup_Some n close grid j q :
  grid !! j = Some q -> scored n close grid !! j = Some (q, score q n close).
Proof. intros H. unfold scored. by rewrite list_lookup_fmap, H. Qed.

Lemma cells_frame_snoc grid p close df :
  cells_frame (grid ++ [p]) close df = cell_frame p close (cells_frame grid close df).
Proof. unfold cells_frame. by rewrite foldl_app. Qed.

Lemma cells_frame_strategy_return grid close df :
  grid <> [] ->
  exists p, cols (cells_frame grid close df) !! "Strategy_Return"
            = Some (strategy_return_col p (nrows df) close).
Proof.
  intros Hne.
  destruct (exists_last Hne) as (init & p & ->).
  exists p. rewrite cells_frame_snoc.
  unfold cell_frame, bt_frame, strategy_return_col.
  cols_simpl. rewrite nrows_cells_frame. reflexivity.
Qed.

(** The metrics printer on a frame that carries strategy returns: it
    returns on an index of dates and fails on [cumulative_returns[-1]] on the
    default integer index, after the Sharpe ratio and the drawdown have been
    computed. *)
Lemma print_performance_metrics_result strat df :
  cols df !! "Strategy_Return" = Some strat ->
  0 < length strat ->
  exists m final,
    print_performance_metrics df = (metrics_outcome (index df) m, df)
    /\ sharpe_ratio m = (mean strat / std strat * F64.sqrt (of_Z 252))%F
    /\ max_drawdown m = calculate_max_drawdown (cumulative strat)
    /\ last (cumulative strat) = Some final
    /\ annualized_return m = (final / (of_nat (nrows df) / of_Z 252))%F.
Proof.
  intros Hs Hlen. unfold print_performance_metrics.
  rewrite !(bind_ok _ _ _ _ _ (getcol_ok _ _ _ Hs)).
  destruct (last_is_Some (cumulative strat)) as [v Hv].
  { by rewrite length_cumulative. }
  exists (mkMetrics (mean strat / std strat * F64.sqrt (of_Z 252))%F
            (calculate_max_drawdown (cumulative strat))
            (v / (of_nat (nrows df) / of_Z 252))%F), v.
  split; [| repeat split; assumption].
  unfold bind, getitem_minus_1, metrics_outcome. unfold cumulative in Hv.
  destruct (index df); [rewrite Hv |]; reflexivity.
Qed.


Lemma main_grid_short_windows n :
  30 <= n -> Forall (fun p => short_window p <= n) main_grid.
Proof.
  intros Hn.
  assert (Hall : forallb (fun q => short_window q <=? 30)%nat main_grid = true)
    by (vm_compute; reflexivity).
  apply Forall_forall. intros p Hp. apply list_elem_of_In in Hp.
  rewrite forallb_forall in Hall. apply Hall, Nat.leb_le in Hp. lia.
Qed.

Lemma main_grid_positive_windows :
  Forall (fun p => 0 < short_window p) main_grid.
Proof.
  assert (Hall : forallb (fun q => 0 <? short_window q)%nat main_grid = true)
    by (vm_compute; reflexivity).
  apply Forall_forall. intros p Hp. apply list_elem_of_In in Hp.
  rewrite forallb_forall in Hall. by apply Hall, Nat.ltb_lt in Hp.
Qed.

Lemma main_grid_last : exists init, main_grid = init ++ [last_main_cell].
Proof. exists (removelast main_grid). vm_compute. reflexivity. Qed.

Lemma main_grid_has_window_30 n :
  n < 30 -> Exists (fun p => n < short_window p) main_grid.
Proof.
  intros Hn. apply Exists_exists. exists last_main_cell. split; [| simpl; lia].
  destruct main_grid_last as [init ->].
  apply elem_of_app. right. apply list_elem_of_here.
Qed.

Lemma hyperparameter_tuning_frame close df :
  cols df !! "Close" = Some close ->
  length close = nrows df -> 30 <= nrows df ->
  let n := nrows df in
  hyperparameter_tuning df =
    (tuning_outcome (index df)
       (select_best (scored n close main_grid) None NInf)
       (select_return (scored n close main_grid) NInf),
     cells_frame main_grid close df).
Proof.
  intros Hc Hl Hpos n. unfold hyperparameter_tuning.
  assert (Hne : main_grid <> []) by (vm_compute; discriminate).
  pose proof (main_grid_short_windows n Hpos) as Hall.
  set (g := main_grid) in *. clearbody g.
  rewrite (bind_ok _ _ _ _ _
             (main_loop_frame close n g df None NInf Hc Hl eq_refl ltac:(lia) Hall)).
  destruct (select_best (scored n close g) None NInf) as [p |];
    unfold ref_of, tuning_outcome; [| reflexivity].
  destruct (cells_frame_strategy_return g close df Hne) as [q Hq].
  destruct (print_performance_metrics_result _ _ Hq) as (m & final & Hm & _).
  { rewrite length_strategy_return_col; [lia | assumption]. }
  unfold bind. rewrite Hm. rewrite index_cells_frame.
  destruct (index df); reflexivity.
Qed.

Lemma hyperparameter_tuning_raises close df :
  cols df !! "Close" = Some close ->
  length close = nrows df -> nrows df < 30 ->
  exists out, hyperparameter_tuning df = (Raise ValueError, out).
Proof.
  intros Hc Hl Hn. unfold hyperparameter_tuning.
  pose proof (main_grid_has_window_30 (nrows df) Hn) as Hex.
  pose proof main_grid_positive_windows as Hpos.
  set (g := main_grid) in *. clearbody g.
  destruct (main_loop_raises close (nrows df) g df None NInf RNone Hc Hl eq_refl Hex
              (or_intror Hpos)) as [out Hout].
  exists out. by apply bind_raise.
Qed.

(** ** Which cells the grid search scores *)



(** ** The tie-break of the grid search *)



(** ** Signal generation *)

Lemma signal_at_warm_up s l close t :
  t < length close -> S t < l -> signal_at s l close t = zero.
Proof.
  intros Ht Hl. unfold signal_at.
  destruct (t <? s)%nat; [reflexivity |].
  rewrite (window_mean_short l) by (rewrite length_take; lia).
  reflexivity.
Qed.

Lemma rolling_mean_short l close :
  length close < l -> rolling_mean l close = replicate (length close) NaN.
Proof.
  intros Hshort.
  apply list_eq_same_length with (length close);
    [by rewrite length_replicate | by rewrite length_rolling_mean |].
  intros t x y Ht Hx Hy.
  rewrite lookup_rolling_mean in Hx by lia.
  rewrite lookup_replicate in Hy. destruct Hy as [-> _].
  injection Hx as <-. apply window_mean_short. rewrite length_take. lia.
Qed.

Lemma signal_col_short n s l close :
  length close = n -> s <= n -> n < l -> signal_col n s l close = replicate n zero.
Proof.
  intros Hl Hs Hshort.
  apply list_eq_same_length with n;
    [by rewrite length_replicate | by apply length_signal_col |].
  intros t x y Ht Hx Hy.
  rewrite lookup_signal_col in Hx by lia.
  rewrite lookup_replicate in Hy. destruct Hy as [-> _].
  injection Hx as <-. apply signal_at_warm_up; lia.
Qed.

(** C5, amended. Signal generation has no check on the long window: on a
    frame of closing prices it returns whenever the short window does not
    exceed the number of observations, however few observations there are
    for the long window; when there are fewer than [long_window] of them the
    long average is missing at every date and every trend flag is Down.  It
    fails only when the short window exceeds the number of observations, and
    then with the [ValueError] of its slice assignment, raised after the two
    averages and the zero flags have been written and before the [Position]
    column is. *)
Theorem signal_generation_checks_no_history :
  forall (df : DataFrame) (close : Series) (short_window long_window : nat),
    cols df !! "Close" = Some close ->
    length close = nrows df ->
    (short_window <= nrows df ->
     exists out : DataFrame,
       apply_moving_average_strategy short_window long_window df = (Ok tt, out)
       /\ (length close < long_window ->
           cols out !! "SMA_Long" = Some (replicate (nrows df) NaN)
           /\ cols out !! "Signal" = Some (replicate (nrows df) zero)))
    /\ (nrows df < short_window ->
        exists out : DataFrame,
          apply_moving_average_strategy short_window long_window df
          = (Raise ValueError, out)
          /\ cols out !! "SMA_Short" = Some (rolling_mean short_window close)
          /\ cols out !! "SMA_Long" = Some (rolling_mean long_window close)
          /\ cols out !! "Signal" = Some (replicate (nrows df) zero)
          /\ cols out !! "Position" = cols df !! "Position").
Proof.
  intros df close s l Hc Hl. split.
  - intros Hs. exists (ma_frame s l close df).
    split; [by apply apply_moving_average_strategy_frame |].
    intros Hshort. unfold ma_frame, ma_raised_frame. cols_simpl. split; f_equal.
    + rewrite <- Hl. by apply rolling_mean_short.
    + apply signal_col_short; [assumption | assumption | lia].
  - intros Hs. exists (ma_raised_frame s l close df).
    split; [by apply apply_moving_average_strategy_raises |].
    destruct (ma_raised_frame_cols s l close df) as (H1 & H2 & H3).
    split; [exact H1 |]. split; [exact H2 |]. split; [exact H3 |].
    unfold ma_raised_frame. cols_simpl. reflexivity.
Qed.

(** ** Risk parameters *)

(** C6, amended. The risk overlay checks neither parameter: on every frame
    that holds closing prices and a signal column it returns normally for
    every stop-loss and take-profit, inside or outside (0,1), and writes the
    managed positions that its transition rule yields for them. *)
Theorem apply_risk_management_total :
  forall (df : DataFrame) (close signal : Series) (stop_loss take_profit : float),
    cols df !! "Close" = Some close ->
    cols df !! "Signal" = Some signal ->
    length close = nrows df ->
    length signal = nrows df ->
    apply_risk_management stop_loss take_profit df =
      (Ok tt,
       with_col "Managed_Position"
         (managed_col (nrows df) stop_loss take_profit signal close) df).
Proof.
  intros df close signal sl tp Hc Hs Hlc Hls.
  apply apply_risk_management_frame; assumption.
Qed.

(** ** The trend flag *)

(** C7, amended. After signal generation (which returns when the short
    window does not exceed the number of rows, and raises [ValueError]
    otherwise) the trend flag at a date [t] is Up (1) exactly when
    [t >= short_window] and the short-window simple moving average at [t]
    exceeds the long-window one; when [short_window < long_window] that is
    exactly when the short average exceeds the long average.  The long
    average is missing and the flag Down at every date before index
    [long_window - 1]; the comparison is evaluated from index
    [long_window - 1] on, the first date that has [long_window]
    observations. *)
Theorem trend_flag_compares_averages :
  forall (df : DataFrame) (close : Series) (short_window long_window : nat),
    cols df !! "Close" = Some close ->
    length close = nrows df ->
    (short_window <= nrows df ->
     exists out : DataFrame,
       apply_moving_average_strategy short_window long_window df = (Ok tt, out)
       /\ forall t, t < nrows df ->
            let a := window_mean short_window (take (S t) close) in
            let b := window_mean long_window (take (S t) close) in
            cell out "SMA_Short" t = Some a
            /\ cell out "SMA_Long" t = Some b
            /\ cell out "Signal" t =
                 Some (if (short_window <=? t)%nat && (a >? b)%F then one else zero)
            /\ (short_window < long_window ->
                cell out "Signal" t = Some (if (a >? b)%F then one else zero))
            /\ (S t < long_window -> b = NaN /\ cell out "Signal" t = Some zero))
    /\ (nrows df < short_window ->
        exists out : DataFrame,
          apply_moving_average_strategy short_window long_window df
          = (Raise ValueError, out)).
Proof.
  intros df close s l Hc Hl. split.
  2: { intros Hs. eexists. by apply apply_moving_average_strategy_raises. }
  intros Hsn.
  exists (ma_frame s l close df).
  split; [apply apply_moving_average_strategy_frame; assumption |].
  intros t Ht a b.
  assert (Hs : cols (ma_frame s l close df) !! "SMA_Short" = Some (rolling_mean s close))
    by (unfold ma_frame, ma_raised_frame; cols_simpl; reflexivity).
  assert (Hlg : cols (ma_frame s l close df) !! "SMA_Long" = Some (rolling_mean l close))
    by (unfold ma_frame, ma_raised_frame; cols_simpl; reflexivity).
  rewrite (cell_lookup _ _ _ _ Hs), (cell_lookup _ _ _ _ Hlg),
    (cell_lookup _ _ _ _ (ma_frame_signal s l close df)).
  rewrite !lookup_rolling_mean by lia.
  rewrite lookup_signal_col by (assumption || lia).
  assert (Hwarm : S t < l -> b = NaN).
  { intros H. apply window_mean_short. rewrite length_take. lia. }
  unfold signal_at. fold a b.
  split; [reflexivity |]. split; [reflexivity |]. split; [| split].
  - destruct (Nat.ltb_spec t s) as [H | H].
    + apply Nat.leb_gt in H. rewrite H. reflexivity.
    + apply Nat.leb_le in H. rewrite H. reflexivity.
  - intros Hsl. destruct (Nat.ltb_spec t s) as [H | H]; [| reflexivity].
    rewrite Hwarm by lia. rewrite gtb_NaN_r. reflexivity.
  - intros H. split; [by apply Hwarm |].
    rewrite Hwarm by assumption. rewrite gtb_NaN_r.
    destruct (t <? s)%nat; reflexivity.
Qed.

(** ** Constant prices *)

(** The quotient of a finite non-zero double by itself is exactly 1. *)
Lemma div_core_self m e :
  SFdiv_core_binary prec emax (Z.pos m) e (Z.pos m) e
  = (9007199254740992%Z, (-53)%Z, loc_Exact).
Proof.
  unfold SFdiv_core_binary. cbv zeta.
  rewrite !Z.sub_diag.
  change (Z.min (fexp prec emax 0) 0) with (-53)%Z.
  change (0 - -53)%Z with 53%Z. cbv iota.
  assert (H : Z.div_eucl (Z.shiftl (Z.pos m) 53) (Z.pos m)
              = (9007199254740992%Z, 0%Z)).
  { rewrite Z.shiftl_mul_pow2 by lia.
    pose proof (Z.div_eucl_eq (Z.pos m * 2 ^ 53) (Z.pos m) ltac:(lia)) as E.
    pose proof (Z.mod_pos_bound (Z.pos m * 2 ^ 53) (Z.pos m) ltac:(lia)) as B.
    unfold Z.modulo in B.
    destruct (Z.div_eucl (Z.pos m * 2 ^ 53) (Z.pos m)) as [q r].
    assert (Z.pos m * (2 ^ 53 - q) = r)%Z by lia.
    assert (2 ^ 53 - q = 0)%Z by nia.
    assert (r = 0 /\ q = 2 ^ 53)%Z as [-> ->] by lia. reflexivity. }
  rewrite H. unfold new_location.
  destruct (Z.even (Z.pos m)); reflexivity.
Qed.

Lemma div_self c : finite_nonzero c = true -> (c / c)%F = one.
Proof.
  destruct c as [s | s | | s m e]; try discriminate. intros _.
  unfold div, SFdiv. rewrite div_core_self.
  destruct s; vm_compute; reflexivity.
Qed.

Lemma finite_nonzero_valid c : finite_nonzero c = true -> is_nan c = false.
Proof. destruct c; first [discriminate | reflexivity]. Qed.

Lemma ffill_from_const v c k :
  is_nan c = false -> ffill_from v (replicate k c) = replicate k c.
Proof.
  intros Hc. revert v. induction k as [| k IH]; intros v; simpl; [reflexivity |].
  rewrite Hc. by rewrite IH.
Qed.

Lemma length_flat_returns n : length (flat_returns n) = n.
Proof. destruct n; simpl; [reflexivity | by rewrite length_replicate]. Qed.

Lemma lookup_flat_returns n t x :
  flat_returns n !! t = Some x -> x = if decide (t = 0) then NaN else zero.
Proof.
  destruct n as [| k]; simpl; [discriminate |].
  destruct t as [| t]; simpl.
  - by intros [= <-].
  - intros H. apply lookup_replicate in H as [-> _]. reflexivity.
Qed.

Lemma div_NaN_r x : (x / NaN)%F = NaN.
Proof. destruct x; reflexivity. Qed.

Lemma mul_NaN_r x : (x * NaN)%F = NaN.
Proof. destruct x; reflexivity. Qed.

Lemma pct_change_const c n :
  finite_nonzero c = true -> pct_change (replicate n c) = flat_returns n.
Proof.
  intros Hc.
  apply list_eq_same_length with n;
    [apply length_flat_returns | by rewrite length_pct_change, length_replicate |].
  intros t x y Ht Hx Hy.
  apply lookup_flat_returns in Hy. subst y.
  unfold pct_change, ffill in Hx.
  rewrite ffill_from_const in Hx by (by apply finite_nonzero_valid).
  rewrite list_lookup_fmap, lookup_zip_with in Hx.
  rewrite lookup_replicate_2 in Hx by lia.
  cbn [mbind option_bind] in Hx.
  destruct t as [| t].
  - rewrite lookup_shift1_0 in Hx by (rewrite length_replicate; lia).
    cbn [mbind option_bind fmap option_fmap option_map] in Hx.
    rewrite div_NaN_r in Hx. by injection Hx as <-.
  - rewrite lookup_shift1_S in Hx by (rewrite length_replicate; lia).
    rewrite lookup_replicate_2 in Hx by lia.
    cbn [mbind option_bind fmap option_fmap option_map] in Hx.
    rewrite div_self in Hx by assumption. by injection Hx as <-.
Qed.

Lemma strategy_return_const p c n :
  finite_nonzero c = true ->
  strategy_return_col p n (replicate n c) = flat_returns n.
Proof.
  intros Hc.
  apply list_eq_same_length with n;
    [apply length_flat_returns
    | by rewrite length_strategy_return_col by apply length_replicate |].
  intros t x y Ht Hx Hy.
  apply lookup_flat_returns in Hy. subst y.
  unfold strategy_return_col in Hx.
  rewrite pct_change_const, lookup_zip_with in Hx by assumption.
  destruct (flat_returns n !! t) as [r |] eqn:Hr; [| discriminate].
  apply lookup_flat_returns in Hr. subst r.
  destruct t as [| t].
  - rewrite lookup_shift1_0 in Hx by (rewrite length_managed_col; lia).
    cbn [mbind option_bind decide] in Hx. by injection Hx as <-.
  - rewrite lookup_shift1_S in Hx by (rewrite length_managed_col; lia).
    rewrite lookup_managed_col in Hx by lia.
    cbn [mbind option_bind] in Hx. injection Hx as <-.
    match goal with |- context [position_at ?a ?b ?s ?x ?y] =>
      destruct (position_at_flag a b s x y) as [-> | ->] end; reflexivity.
Qed.

Lemma cumprod_from_ones k : cumprod_from one (replicate k one) = replicate k one.
Proof.
  induction k as [| k IH]; [reflexivity |].
  cbn [replicate cumprod_from is_nan one].
  change (one * one)%F with one. by rewrite IH.
Qed.

Lemma cumulative_flat_returns n : cumulative (flat_returns n) = flat_returns n.
Proof.
  destruct n as [| k]; [reflexivity |].
  unfold cumulative, cumprod. cbn [flat_returns map].
  change (one + NaN)%F with NaN. cbn [cumprod_from is_nan map].
  change (NaN - one)%F with NaN. f_equal.
  rewrite fmap_replicate.
  change (one + zero)%F with one.
  rewrite cumprod_from_ones, fmap_replicate. reflexivity.
Qed.

Lemma last_flat_returns n : 2 <= n -> last (flat_returns n) = Some zero.
Proof.
  intros Hn. rewrite last_lookup, length_flat_returns.
  destruct n as [| [| k]]; try lia.
  unfold flat_returns. simpl pred. rewrite lookup_cons_ne_0 by lia.
  apply lookup_replicate_2. lia.
Qed.

Lemma dropna_zeros k : dropna (replicate k zero) = replicate k zero.
Proof.
  unfold dropna. induction k as [| k IH]; [reflexivity |].
  cbn [replicate]. rewrite filter_cons_True by reflexivity. by rewrite IH.
Qed.

Lemma dropna_flat_returns n : dropna (flat_returns n) = replicate (n - 1) zero.
Proof.
  destruct n as [| k]; [reflexivity |].
  cbn [flat_returns]. replace (S k - 1) with k by lia.
  rewrite <- (dropna_zeros k) at 2.
  unfold dropna. apply filter_cons_False. discriminate.
Qed.

Lemma fillna_flat_returns n : fillna zero (flat_returns n) = replicate n zero.
Proof.
  destruct n as [| k]; [reflexivity |].
  unfold fillna. cbn [flat_returns map replicate is_nan]. f_equal.
  rewrite fmap_replicate. reflexivity.
Qed.

(** Zero divided by any count is a zero, or missing when the count is not
    a number or is itself zero. *)
Lemma zero_div x : (zero / x)%F = NaN \/ exists s, (zero / x)%F = S754_zero s.
Proof. destruct x as [s | s | | s m e]; [left | right | left | right]; eauto. Qed.

Lemma squares_flat_returns n s :
  map (fun x => if is_nan x then zero
                else ((S754_zero s - x) * (S754_zero s - x))%F) (flat_returns n)
  = replicate n zero.
Proof.
  destruct n as [| k]; [reflexivity |].
  cbn [flat_returns map replicate is_nan]. f_equal.
  rewrite fmap_replicate. f_equal. destruct s; reflexivity.
Qed.

(** The Sharpe computation on the returns of a flat market: a mean of
    zeros over a deviation that is zero or missing. *)
Lemma sharpe_flat_returns n :
  (mean (flat_returns n) / std (flat_returns n) * F64.sqrt (of_Z 252))%F = NaN.
Proof.
  unfold mean, std.
  rewrite dropna_flat_returns, fillna_flat_returns, length_replicate, fsum_zeros.
  destruct (n - 1 =? 0)%nat; [reflexivity |].
  destruct (zero_div (of_nat (n - 1))) as [-> | [s ->]]; [reflexivity |].
  destruct (n - 1 <? 2)%nat; [destruct s; reflexivity |].
  cbv zeta. rewrite squares_flat_returns, fsum_zeros.
  destruct (zero_div (of_nat (n - 1 - 1))) as [-> | [s' ->]];
    destruct s; try destruct s'; reflexivity.
Qed.

(** C9, amended. For every series whose closes are all the same finite
    non-zero constant, and every parameter set whose short window does not
    exceed the number of observations (so that the run completes), the
    cumulative market return and the cumulative strategy return are 0 at
    every date after the first; the terminal cumulative returns are 0 when
    the series has at least two observations; and the Sharpe computation on
    the strategy returns yields NaN, without raising, whatever the length.
    [print_performance_metrics] as a whole then returns that Sharpe ratio on a
    frame indexed by dates, and fails on its later line
    [cumulative_returns[-1]] on a frame with the default integer index. *)
Theorem constant_price_returns :
  forall (df : DataFrame) (c : float) (n : nat) (p : params),
    finite_nonzero c = true ->
    cols df !! "Close" = Some (replicate n c) ->
    nrows df = n ->
    short_window p <= n ->
    exists out : DataFrame,
      run_pipeline p df = (Ok tt, out)
      /\ (forall t, 1 <= t -> t < n ->
            cell out "Cumulative_Market_Returns" t = Some zero
            /\ cell out "Cumulative_Strategy_Returns" t = Some zero)
      /\ (2 <= n ->
            iloc_last "Cumulative_Market_Returns" out = (Ok zero, out)
            /\ iloc_last "Cumulative_Strategy_Returns" out = (Ok zero, out))
      /\ (exists strat,
            cols out !! "Strategy_Return" = Some strat
            /\ (mean strat / std strat * F64.sqrt (of_Z 252))%F = NaN)
      /\ (1 <= n ->
            exists m,
              print_performance_metrics out = (metrics_outcome (index df) m, out)
              /\ sharpe_ratio m = NaN).
Proof.
  intros df c n p Hc Hclose Hn Hsw.
  set (close := replicate n c) in *.
  assert (Hl : length close = nrows df).
  { unfold close. rewrite length_replicate. by symmetry. }
  exists (cell_frame p close df).
  split; [apply pipeline_frame; [assumption | assumption | lia] |].
  destruct (cell_frame_cells p close df Hclose) as (_ & _ & _ & _ & Hs & Hcm & Hcs).
  rewrite Hn in Hs, Hcs. unfold close in Hs, Hcm, Hcs.
  rewrite strategy_return_const in Hs, Hcs by assumption.
  rewrite pct_change_const in Hcm by assumption.
  rewrite cumulative_flat_returns in Hcm, Hcs.
  fold close in Hs, Hcm, Hcs.
  split; [| split; [| split]].
  - intros t Ht Hlt.
    rewrite (cell_lookup _ _ _ _ Hcm), (cell_lookup _ _ _ _ Hcs).
    destruct n as [| k]; [lia |]. destruct t as [| t]; [lia |].
    cbn [flat_returns]. rewrite lookup_cons_ne_0 by lia.
    split; apply lookup_replicate_2; lia.
  - intros Hn2. split.
    + apply (iloc_last_ok _ _ _ _ Hcm). by apply last_flat_returns.
    + apply (iloc_last_ok _ _ _ _ Hcs). by apply last_flat_returns.
  - exists (flat_returns n). split; [assumption |].
    apply sharpe_flat_returns.
  - intros Hn1.
    destruct (print_performance_metrics_result (flat_returns n)
                (cell_frame p close df) Hs) as (m & final & Hm & Hsharpe & _).
    { rewrite length_flat_returns. lia. }
    exists m. rewrite index_cell_frame in Hm. split; [assumption |].
    rewrite Hsharpe. apply sharpe_flat_returns.
Qed.

(** ** The closing prices are never written *)

Lemma keeps_ret {A} (a : A) : keeps_close (ret a).
Proof. intros df. split; reflexivity. Qed.

Lemma keeps_raise {A} e : keeps_close (@raise A e).
Proof. intros df. split; reflexivity. Qed.

Lemma keeps_bind {A B} (m : M A) (k : A -> M B) :
  keeps_close m -> (forall a, keeps_close (k a)) -> keeps_close (bind m k).
Proof.
  intros Hm Hk df. unfold bind.
  destruct (Hm df) as [Hc Hn]. destruct (m df) as [[a | e] df']; simpl in *.
  - destruct (Hk a df') as [Hc' Hn']. split; congruence.
  - split; assumption.
Qed.

Lemma keeps_len : keeps_close len.
Proof. intros df. split; reflexivity. Qed.

Lemma keeps_getcol k : keeps_close (getcol k).
Proof.
  intros df. unfold getcol. destruct (cols df !! k); split; reflexivity.
Qed.

Lemma keeps_getitem_minus_1 s : keeps_close (getitem_minus_1 s).
Proof.
  intros df. unfold getitem_minus_1.
  destruct (index df); [destruct (last s) |]; split; reflexivity.
Qed.

Lemma keeps_setcol k c : k <> "Close"%string -> keeps_close (setcol k c).
Proof.
  intros Hk df. unfold setcol. simpl. split; [| reflexivity].
  apply cols_with_col_ne. assumption.
Qed.

Lemma keeps_setcol_scalar k v : k <> "Close"%string -> keeps_close (setcol_scalar k v).
Proof.
  intros Hk df. unfold setcol_scalar. simpl. split; [| reflexivity].
  apply cols_with_col_ne. assumption.
Qed.

Lemma keeps_setcol_from k a vs : k <> "Close"%string -> keeps_close (setcol_from k a vs).
Proof.
  intros Hk. unfold setcol_from.
  apply keeps_bind; [apply keeps_getcol |]. intros c.
  destruct (_ && _); [by apply keeps_setcol | apply keeps_raise].
Qed.

Lemma keeps_iloc_get k i : keeps_close (iloc_get k i).
Proof.
  unfold iloc_get. apply keeps_bind; [apply keeps_getcol |].
  intros c. destruct (c !! i); [apply keeps_ret | apply keeps_raise].
Qed.

Lemma keeps_iloc_set k i v : k <> "Close"%string -> keeps_close (iloc_set k i v).
Proof.
  intros Hk. unfold iloc_set. apply keeps_bind; [apply keeps_getcol |].
  intros c. destruct (i <? length c)%nat; [by apply keeps_setcol | apply keeps_raise].
Qed.

Lemma keeps_iloc_last k : keeps_close (iloc_last k).
Proof.
  unfold iloc_last. apply keeps_bind; [apply keeps_getcol |].
  intros c. destruct (last c); [apply keeps_ret | apply keeps_raise].
Qed.

Lemma keeps_for_each {A} (xs : list A) (body : A -> M unit) :
  (forall x, keeps_close (body x)) -> keeps_close (for_each xs body).
Proof.
  intros Hb. induction xs as [| x r IH]; simpl; [apply keeps_ret |].
  apply keeps_bind; [apply Hb | intros _; apply IH].
Qed.

(** Composition of the rules above, column names compared by computation. *)
Ltac keeps :=
  repeat first
    [ apply keeps_ret | apply keeps_raise | apply keeps_len
    | apply keeps_getcol | apply keeps_iloc_get | apply keeps_iloc_last
    | apply keeps_getitem_minus_1
    | apply keeps_setcol; discriminate
    | apply keeps_setcol_scalar; discriminate
    | apply keeps_setcol_from; discriminate
    | apply keeps_iloc_set; discriminate
    | apply keeps_bind; [| intros ?]
    | match goal with |- keeps_close (if ?b then _ else _) => destruct b end
    | match goal with |- keeps_close (match ?o with Some _ => _ | None => _ end) =>
        destruct o end ].

Lemma keeps_apply_moving_average_strategy s l :
  keeps_close (apply_moving_average_strategy s l).
Proof. unfold apply_moving_average_strategy. keeps. Qed.

Lemma keeps_risk_step sl tp i : keeps_close (risk_step sl tp i).
Proof. unfold risk_step. keeps. Qed.

Lemma keeps_apply_risk_management sl tp : keeps_close (apply_risk_management sl tp).
Proof.
  unfold apply_risk_management. keeps.
  apply keeps_for_each. intros i. apply keeps_risk_step.
Qed.

Lemma keeps_backtest_strategy : keeps_close backtest_strategy.
Proof. unfold backtest_strategy. keeps. Qed.

Lemma keeps_run_call c : keeps_close (run_call c).
Proof.
  destruct c; simpl;
    [ apply keeps_apply_moving_average_strategy
    | apply keeps_apply_risk_management
    | apply keeps_backtest_strategy ].
Qed.

Lemma keeps_run_cell p : keeps_close (run_cell p).
Proof.
  unfold run_cell.
  apply keeps_bind; [apply keeps_apply_moving_average_strategy | intros _].
  apply keeps_bind; [apply keeps_apply_risk_management | intros _].
  apply keeps_bind; [apply keeps_backtest_strategy | intros _].
  apply keeps_iloc_last.
Qed.

Lemma keeps_tune_loop grid : forall bp br, keeps_close (tune_loop grid bp br).
Proof.
  induction grid as [| p rest IH]; intros bp br; simpl; [apply keeps_ret |].
  apply keeps_bind; [apply keeps_run_cell | intros r].
  destruct (r >? br)%F; apply IH.
Qed.

Lemma keeps_tune_hyperparameters sws lws sls tps :
  keeps_close (tune_hyperparameters sws lws sls tps).
Proof.
  unfold tune_hyperparameters. apply keeps_bind; [| intros g; apply keeps_tune_loop].
  unfold ParameterGrid.
  destruct sws; [apply keeps_raise |]. destruct lws; [apply keeps_raise |].
  destruct sls; [apply keeps_raise |]. destruct tps; [apply keeps_raise |].
  apply keeps_ret.
Qed.

Lemma keeps_main_loop grid :
  forall bp br ref, keeps_close (main_loop grid bp br ref).
Proof.
  induction grid as [| p rest IH]; intros bp br ref; simpl; [apply keeps_ret |].
  apply keeps_bind; [apply keeps_run_cell | intros r].
  destruct (r >? br)%F; apply IH.
Qed.

Lemma keeps_print_performance_metrics : keeps_close print_performance_metrics.
Proof. unfold print_performance_metrics. keeps. Qed.

Lemma keeps_hyperparameter_tuning : keeps_close hyperparameter_tuning.
Proof.
  unfold hyperparameter_tuning.
  apply keeps_bind; [apply keeps_main_loop | intros [[bp br] ref]].
  destruct ref; [apply keeps_raise |].
  apply keeps_bind; [apply keeps_print_performance_metrics | intros _].
  apply keeps_ret.
Qed.

Lemma cell_frame_derived p close df1 df2 k :
  nrows df1 = nrows df2 ->
  k ∈ derived_columns ->
  cols (cell_frame p close df1) !! k = cols (cell_frame p close df2) !! k.
Proof.
  intros Hn Hk. unfold derived_columns in Hk.
  unfold cell_frame, bt_frame, ma_frame, ma_raised_frame.
  repeat (apply elem_of_cons in Hk as [-> | Hk];
          [cols_simpl; rewrite ?Hn; reflexivity |]).
  by apply elem_of_nil in Hk.
Qed.

Lemma ma_raised_frame_early s l close df1 df2 k :
  nrows df1 = nrows df2 ->
  k ∈ early_columns ->
  cols (ma_raised_frame s l close df1) !! k = cols (ma_raised_frame s l close df2) !! k.
Proof.
  intros Hn Hk. unfold early_columns in Hk. unfold ma_raised_frame.
  repeat (apply elem_of_cons in Hk as [-> | Hk];
          [cols_simpl; rewrite ?Hn; reflexivity |]).
  by apply elem_of_nil in Hk.
Qed.

Lemma ma_raised_frame_other s l close df k :
  k ∉ early_columns -> cols (ma_raised_frame s l close df) !! k = cols df !! k.
Proof.
  intros Hk. unfold early_columns in Hk.
  rewrite !not_elem_of_cons in Hk. destruct Hk as (H1 & H2 & H3 & _).
  unfold ma_raised_frame.
  rewrite !cols_with_col_ne by (intros E; symmetry in E; contradiction).
  reflexivity.
Qed.

(** C10. No pipeline call writes the closing prices: after any sequence of
    calls to signal generation, risk management and backtesting on the
    shared frame, and after either grid search, the [Close] column and the
    row count are those of the input, whether the calls returned or raised.
    Hence a run that follows any such sequence (and so finds the columns of
    earlier runs in the frame) has the outcome that the same parameters have
    on a fresh frame of the same closes; when it completes - its short
    window does not exceed the number of rows - its score and all its derived
    columns are those of the fresh frame.  A run whose short window exceeds
    the number of rows stops with [ValueError] in signal generation: the
    two averages and the zero flags it has written are again those of the
    fresh frame, and every other column is left as the earlier calls left
    it. *)
Theorem close_column_never_modified :
  forall (df : DataFrame),
    (forall calls : list call,
       cols (for_each calls run_call df).2 !! "Close" = cols df !! "Close"
       /\ nrows (for_each calls run_call df).2 = nrows df)
    /\ (forall sws lws sls tps,
          cols (tune_hyperparameters sws lws sls tps df).2 !! "Close"
          = cols df !! "Close")
    /\ cols (hyperparameter_tuning df).2 !! "Close" = cols df !! "Close"
    /\ (forall (close : Series) (calls : list call) (p : params),
          cols df !! "Close" = Some close ->
          length close = nrows df ->
          let stale := (for_each calls run_call df).2 in
          let fresh := price_frame close in
          (run_cell p stale).1 = (run_cell p fresh).1
          /\ (run_cell p stale).1 =
               (if decide (short_window p <= length close) then
                  if decide (length close = 0) then Raise IndexError
                  else Ok (score p (length close) close)
                else Raise ValueError)
          /\ cols (run_cell p stale).2 !! "Close" = Some close
          /\ (short_window p <= length close ->
              forall k, k ∈ derived_columns ->
                cols (run_cell p stale).2 !! k = cols (run_cell p fresh).2 !! k)
          /\ (length close < short_window p ->
              (forall k, k ∈ early_columns ->
                 cols (run_cell p stale).2 !! k = cols (run_cell p fresh).2 !! k)
              /\ (forall k, k ∉ early_columns ->
                    cols (run_cell p stale).2 !! k = cols stale !! k))).
Proof.
  intros df.
  assert (Hcalls : forall calls, keeps_close (for_each calls run_call)).
  { intros calls. apply keeps_for_each, keeps_run_call. }
  split; [intros calls; apply Hcalls |].
  split; [intros sws lws sls tps; apply keeps_tune_hyperparameters |].
  split; [apply keeps_hyperparameter_tuning |].
  intros close calls p Hc Hl stale fresh.
  destruct (Hcalls calls df) as [Hsc Hsn]. fold stale in Hsc, Hsn.
  rewrite Hc in Hsc.
  assert (Hsl : length close = nrows stale) by congruence.
  assert (Hfc : cols fresh !! "Close" = Some close).
  { unfold fresh, price_frame. simpl. apply lookup_singleton_eq. }
  assert (Hfl : length close = nrows fresh) by reflexivity.
  rewrite (run_cell_result p close stale Hsc Hsl).
  rewrite (run_cell_result p close fresh Hfc Hfl).
  rewrite <- Hsl, <- Hfl.
  destruct (decide (short_window p <= length close)) as [Hs | Hs]; cbn [fst snd].
  - split; [reflexivity |]. split; [reflexivity |].
    split; [by apply cell_frame_close |].
    split; [| intros; lia].
    intros _ k Hk. apply cell_frame_derived; [congruence | assumption].
  - split; [reflexivity |]. split; [reflexivity |].
    split.
    { rewrite ma_raised_frame_other; [exact Hsc |].
      unfold early_columns. rewrite !not_elem_of_cons.
      repeat split; try discriminate. apply not_elem_of_nil. }
    split; [intros; lia |].
    intros _. split.
    + intros k Hk. apply ma_raised_frame_early; [congruence | assumption].
    + intros k Hk. by apply ma_raised_frame_other.
Qed.

(** * Further properties of the code *)

(** ** What the risk overlay never does *)

Lemma risk_cell_one_signal sl tp s h x x' :
  risk_cell sl tp s h x x' = one -> (s =? one)%F = true.
Proof.
  unfold risk_cell.
  destruct (s =? one)%F; [reflexivity |].
  destruct (h =? one)%F, (x <? x' * (one - sl))%F, (x >? x' * (one + tp))%F;
    intros H; discriminate H.
Qed.

Lemma position_at_one_signal sl tp sg c t :
  position_at sl tp sg c t = one -> 1 <= t /\ (sg !!! t =? one)%F = true.
Proof.
  destruct t as [| t]; simpl; [intros H; discriminate H |].
  intros H. split; [lia |]. by apply risk_cell_one_signal in H.
Qed.

(** X1. Whatever the signal column holds (flags, other numbers, missing
    values) and whatever the two thresholds are, [apply_risk_management]
    writes only the cells 0 and 1, leaves the first date at 0, and puts 1 at a
    date only where the signal of that same date equals 1: the overlay can
    take exposure away, it never adds any. *)
Theorem managed_positions_follow_signal :
  forall (df : DataFrame) (close signal : Series) (stop_loss take_profit : float),
    cols df !! "Close" = Some close ->
    cols df !! "Signal" = Some signal ->
    length close = nrows df ->
    length signal = nrows df ->
    exists managed : Series,
      apply_risk_management stop_loss take_profit df =
        (Ok tt, with_col "Managed_Position" managed df)
      /\ length managed = nrows df
      /\ (forall t x, managed !! t = Some x -> x = zero \/ x = one)
      /\ (0 < nrows df -> managed !! 0 = Some zero)
      /\ (forall t, managed !! t = Some one ->
            1 <= t /\ exists s, signal !! t = Some s /\ (s =? one)%F = true).
Proof.
  intros df close signal sl tp Hc Hs Hlc Hls.
  exists (managed_col (nrows df) sl tp signal close).
  split; [apply apply_risk_management_frame; assumption |].
  split; [apply length_managed_col |].
  split; [| split].
  - intros t x Hx.
    assert (Ht : t < nrows df).
    { apply lookup_lt_Some in Hx. by rewrite length_managed_col in Hx. }
    rewrite lookup_managed_col in Hx by assumption. injection Hx as <-.
    apply position_at_flag.
  - intros Hn. by rewrite lookup_managed_col.
  - intros t Hx.
    assert (Ht : t < nrows df).
    { apply lookup_lt_Some in Hx. by rewrite length_managed_col in Hx. }
    rewrite lookup_managed_col in Hx by assumption. injection Hx as Hx.
    apply position_at_one_signal in Hx as [Hpos Hsig]. split; [assumption |].
    destruct (lookup_lt_is_Some_2 signal t) as [s Hst]; [lia |].
    exists s. split; [assumption |].
    by rewrite (list_lookup_total_correct _ _ _ Hst) in Hsig.
Qed.

(** ** Warm-up and degenerate windows *)

Lemma position_at_zero_of_signal sl tp sg c t :
  sg !!! t = zero -> position_at sl tp sg c t = zero.
Proof.
  intros Hs. destruct (position_at_flag sl tp sg c t) as [H | H]; [assumption |].
  apply position_at_one_signal in H as [_ H]. rewrite Hs in H. discriminate H.
Qed.

(** X2. After one run of the pipeline that completes (a short window not
    above the number of rows), every date before index [short_window] and
    every date before index [long_window - 1] carries the flag 0 and the
    managed position 0: nothing is held during the warm-up of either
    average. *)
Theorem warm_up_is_flat :
  forall (p : params) (df : DataFrame) (close : Series),
    cols df !! "Close" = Some close ->
    length close = nrows df ->
    short_window p <= nrows df ->
    exists out : DataFrame,
      run_pipeline p df = (Ok tt, out)
      /\ forall t, t < nrows df ->
           t < short_window p \/ S t < long_window p ->
           cell out "Signal" t = Some zero
           /\ cell out "Managed_Position" t = Some zero.
Proof.
  intros p df close Hc Hl Hsw.
  exists (cell_frame p close df).
  split; [by apply pipeline_frame |].
  intros t Ht Hwarm.
  destruct (cell_frame_cells p close df Hc) as (_ & Hsg & Hm & _).
  rewrite (cell_lookup _ _ _ _ Hsg), (cell_lookup _ _ _ _ Hm).
  assert (Hz : signal_at (short_window p) (long_window p) close t = zero).
  { destruct Hwarm as [Hs | Hlg].
    - unfold signal_at. apply Nat.ltb_lt in Hs. by rewrite Hs.
    - apply signal_at_warm_up; lia. }
  rewrite lookup_signal_col, lookup_managed_col by (assumption || lia).
  rewrite Hz. split; [reflexivity |]. f_equal.
  apply position_at_zero_of_signal.
  rewrite signal_col_total by (assumption || lia). exact Hz.
Qed.

Lemma signal_at_equal_windows w close t : signal_at w w close t = zero.
Proof.
  unfold signal_at. destruct (t <? w)%nat; [reflexivity |].
  by rewrite gtb_irrefl.
Qed.

Lemma managed_col_flat n sl tp close :
  managed_col n sl tp (replicate n zero) close = replicate n zero.
Proof.
  apply list_eq_same_length with n;
    [by rewrite length_replicate | apply length_managed_col |].
  intros t x y Ht Hx Hy.
  rewrite lookup_managed_col in Hx by assumption.
  rewrite lookup_replicate in Hy. destruct Hy as [-> _].
  injection Hx as <-. apply position_at_zero_of_signal.
  apply list_lookup_total_correct. by apply lookup_replicate_2.
Qed.

Lemma signal_col_flat_cases p n close :
  length close = n ->
  short_window p <= n ->
  short_window p = long_window p \/ n < long_window p ->
  signal_col n (short_window p) (long_window p) close = replicate n zero.
Proof.
  intros Hl Hs Hcase.
  apply list_eq_same_length with n;
    [by rewrite length_replicate | by apply length_signal_col |].
  intros t x y Ht Hx Hy.
  rewrite lookup_signal_col in Hx by (assumption || lia).
  rewrite lookup_replicate in Hy. destruct Hy as [-> _].
  injection Hx as <-. destruct Hcase as [E | Hshort].
  - rewrite E. apply signal_at_equal_windows.
  - apply signal_at_warm_up; lia.
Qed.

(** X3. A grid cell whose two windows are equal (and do not exceed the
    number of rows, so that the run completes) never trades: the two
    averages coincide, so every flag is 0 and every managed position is 0,
    for every price series and every pair of thresholds. *)
Theorem equal_windows_never_trade :
  forall (w : nat) (stop_loss take_profit : float) (df : DataFrame) (close : Series),
    cols df !! "Close" = Some close ->
    length close = nrows df ->
    w <= nrows df ->
    exists out : DataFrame,
      run_pipeline (mkParams w w stop_loss take_profit) df = (Ok tt, out)
      /\ cols out !! "Signal" = Some (replicate (nrows df) zero)
      /\ cols out !! "Managed_Position" = Some (replicate (nrows df) zero).
Proof.
  intros w sl tp df close Hc Hl Hw.
  exists (cell_frame (mkParams w w sl tp) close df).
  split; [by apply pipeline_frame |].
  destruct (cell_frame_cells (mkParams w w sl tp) close df Hc) as (_ & Hsg & Hm & _).
  rewrite Hsg, Hm.
  rewrite (signal_col_flat_cases (mkParams w w sl tp) (nrows df) close Hl Hw)
    by (by left).
  split; [reflexivity |]. f_equal. apply managed_col_flat.
Qed.

(** ** Missing columns *)

Lemma backtest_strategy_keyerror df :
  cols df !! "Close" = None -> backtest_strategy df = (Raise (KeyError "Close"), df).
Proof.
  intros Hc. unfold backtest_strategy. apply bind_raise. by apply getcol_missing.
Qed.

Lemma run_cell_keyerror p df :
  cols df !! "Close" = None -> run_cell p df = (Raise (KeyError "Close"), df).
Proof.
  intros Hc. unfold run_cell. apply bind_raise.
  by apply apply_moving_average_strategy_keyerror.
Qed.

Lemma ParameterGrid_cells_nonempty sws lws sls tps :
  ParameterGrid_cells sws lws sls tps <> [] ->
  sws <> [] /\ lws <> [] /\ sls <> [] /\ tps <> [].
Proof.
  intros Hne. destruct (nonempty_elem _ Hne) as [p Hp].
  apply elem_of_ParameterGrid_cells in Hp as (H1 & H2 & H3 & H4).
  repeat split; intros E; rewrite E in *;
    match goal with H : _ ∈ [] |- _ => by apply elem_of_nil in H end.
Qed.

(** X4. On a frame without a [Close] column, signal generation, the return
    computation and both grid searches raise [KeyError('Close')] at their
    first read, before anything has been written: the frame is returned as it
    was. *)
Theorem missing_close_raises_before_any_write :
  forall (df : DataFrame),
    cols df !! "Close" = None ->
    (forall s l,
       apply_moving_average_strategy s l df = (Raise (KeyError "Close"), df))
    /\ backtest_strategy df = (Raise (KeyError "Close"), df)
    /\ (forall sws lws sls tps,
          ParameterGrid_cells sws lws sls tps <> [] ->
          tune_hyperparameters sws lws sls tps df = (Raise (KeyError "Close"), df))
    /\ hyperparameter_tuning df = (Raise (KeyError "Close"), df).
Proof.
  intros df Hc.
  split; [intros s l; by apply apply_moving_average_strategy_keyerror |].
  split; [by apply backtest_strategy_keyerror |].
  split.
  - intros sws lws sls tps Hne. unfold tune_hyperparameters.
    destruct (ParameterGrid_cells_nonempty _ _ _ _ Hne) as (H1 & H2 & H3 & H4).
    rewrite (bind_ok _ _ _ _ _ (ParameterGrid_ok sws lws sls tps df H1 H2 H3 H4)).
    destruct (ParameterGrid_cells sws lws sls tps) as [| p rest]; [congruence |].
    cbn [tune_loop]. apply bind_raise. by apply run_cell_keyerror.
  - unfold hyperparameter_tuning.
    assert (Hgrid : exists p rest, main_grid = p :: rest).
    { vm_compute. eauto. }
    destruct Hgrid as (p & rest & ->).
    apply bind_raise. cbn [main_loop]. apply bind_raise. by apply run_cell_keyerror.
Qed.

(** X5. On a frame without a [Signal] column, [apply_risk_management] first
    writes an all-zero [Managed_Position] column and then, only if the frame
    has at least two rows, raises [KeyError('Signal')] in the first loop
    iteration; with zero or one row the loop body never runs and the call
    returns normally.  In both cases the zero column stays in the frame. *)
Theorem risk_management_without_signal :
  forall (df : DataFrame) (stop_loss take_profit : float),
    cols df !! "Signal" = None ->
    let zeros := with_col "Managed_Position" (replicate (nrows df) zero) df in
    (nrows df <= 1 ->
       apply_risk_management stop_loss take_profit df = (Ok tt, zeros))
    /\ (2 <= nrows df ->
          apply_risk_management stop_loss take_profit df =
            (Raise (KeyError "Signal"), zeros)).
Proof.
  intros df sl tp Hs zeros. subst zeros. unfold apply_risk_management.
  split; intros Hn.
  - step_set. erewrite bind_ok; [| reflexivity]. cols_simpl.
    unfold range. replace (nrows df - 1) with 0 by lia. reflexivity.
  - step_set. erewrite bind_ok; [| reflexivity]. cols_simpl.
    unfold range. destruct (nrows df - 1) as [| k] eqn:E; [lia |].
    cbn [seq for_each]. apply bind_raise.
    unfold risk_step. apply bind_raise.
    unfold iloc_get. apply bind_raise.
    apply getcol_missing. rewrite cols_with_col_ne by discriminate. exact Hs.
Qed.

(** X6. Called before the risk overlay, on a frame that has closing prices
    but no [Managed_Position] column, [backtest_strategy] raises
    [KeyError('Managed_Position')] only after it has already written the
    [Daily_Return] column into the frame. *)
Theorem backtest_without_positions :
  forall (df : DataFrame) (close : Series),
    cols df !! "Close" = Some close ->
    cols df !! "Managed_Position" = None ->
    backtest_strategy df =
      (Raise (KeyError "Managed_Position"),
       with_col "Daily_Return" (pct_change close) df).
Proof.
  intros df close Hc Hm. unfold backtest_strategy.
  step_get. step_set. step_get.
  apply bind_raise. apply getcol_missing.
  rewrite cols_with_col_ne by discriminate. exact Hm.
Qed.

(** ** Degenerate searches *)

Lemma score_single_observation p x : score p 1 [x] = NaN.
Proof.
  unfold score, strategy_return_col, managed_col, cumulative, cumprod, pct_change, ffill.
  destruct x; reflexivity.
Qed.

(** X7. On a frame with a single observation every grid cell scores [NaN]
    (the only cumulative return is the undefined first-date value) and no
    score beats the initial [-inf]: [tune_hyperparameters], on non-empty
    lists whose short windows are 0 or 1, returns [None].
    [hyperparameter_tuning] does not get that far: the first cell of its grid
    has a short window of 10 and signal generation raises [ValueError]. *)
Theorem single_observation_selects_nothing :
  forall (df : DataFrame) (x : float),
    cols df !! "Close" = Some [x] ->
    nrows df = 1 ->
    (forall p, score p 1 [x] = NaN)
    /\ (forall sws lws sls tps,
          sws <> [] -> lws <> [] -> sls <> [] -> tps <> [] ->
          Forall (fun s => s <= 1) sws ->
          exists out, tune_hyperparameters sws lws sls tps df = (Ok None, out))
    /\ (exists out, hyperparameter_tuning df = (Raise ValueError, out)).
Proof.
  intros df x Hc Hn.
  assert (Hl : length [x] = nrows df) by (by rewrite Hn).
  assert (Hnone : forall grid, select_best (scored (nrows df) [x] grid) None NInf = None).
  { intros grid. apply select_best_none. intros j q r Hj.
    apply scored_lookup in Hj as [_ ->]. rewrite Hn.
    by rewrite score_single_observation. }
  split; [intros p; apply score_single_observation |]. split.
  - intros sws lws sls tps H1 H2 H3 H4 Hall. eexists.
    rewrite (tune_hyperparameters_frame [x] df sws lws sls tps Hc Hl);
      try assumption; [| lia | by rewrite Hn].
    by rewrite Hnone.
  - apply (hyperparameter_tuning_raises [x]); [assumption | assumption | lia].
Qed.

(** ** What the tuning loop of main.py returns *)

(** X8. [hyperparameter_tuning] on a frame of closing prices.  With fewer
    than 30 rows it raises [ValueError] (its grid has short windows up to
    30).  With 30 rows or more its loops complete, and then either no cell of
    the grid has a score above [-inf] and it fails with [TypeError]; or a
    cell of the grid is selected, with a score above [-inf] that no cell of
    the grid exceeds, and the function returns that cell together with that
    cell's own score on a frame indexed by dates, and fails with
    [KeyError(-1)] in the metrics printer on a frame with the default
    integer index. *)
Theorem hyperparameter_tuning_outcome :
  forall (df : DataFrame) (close : Series),
    cols df !! "Close" = Some close ->
    length close = nrows df ->
    let n := nrows df in
    (n < 30 -> exists out, hyperparameter_tuning df = (Raise ValueError, out))
    /\ (30 <= n ->
        exists res out,
          hyperparameter_tuning df = (res, out)
          /\ ((res = Raise TypeError
               /\ forall q, q ∈ main_grid -> (score q n close >? NInf)%F = false)
              \/ (exists p,
                    res = tuning_outcome (index df) (Some p) (score p n close)
                    /\ p ∈ main_grid
                    /\ (score p n close >? NInf)%F = true
                    /\ forall q, q ∈ main_grid ->
                         (score q n close >? score p n close)%F = false))).
Proof.
  intros df close Hc Hl n. split.
  { intros Hn. by apply (hyperparameter_tuning_raises close). }
  intros Hpos.
  rewrite (hyperparameter_tuning_frame close df Hc Hl Hpos). cbv zeta.
  fold n. set (g := main_grid). clearbody g.
  eexists _, _. split; [reflexivity |].
  destruct (select_best_spec (scored n close g) None NInf)
    as [[Hsel Hall] | (i & p & r & Hi & Hsel & Hgt & Hmax & _)].
  - left. rewrite Hsel. split; [reflexivity |].
    intros q Hq. apply list_elem_of_lookup in Hq as [j Hj].
    apply (Hall j q). by apply scored_lookup_Some.
  - right. exists p. rewrite Hsel.
    destruct (select_pair_spec (scored n close g) None NInf)
      as [[Hb _] | (i' & p' & r' & Hi' & Hb & Hr)].
    { rewrite Hsel in Hb. discriminate Hb. }
    rewrite Hsel in Hb. injection Hb as <-.
    apply scored_lookup in Hi' as [_ ->].
    apply scored_lookup in Hi as [Hi ->].
    rewrite Hr. split; [reflexivity |].
    split; [apply list_elem_of_lookup; eauto |].
    split; [assumption |].
    intros q Hq. apply list_elem_of_lookup in Hq as [j Hj].
    apply (Hmax j q). by apply scored_lookup_Some.
Qed.

(** ** Runs on the shared frame overwrite one another *)

Lemma frame_eq (a b : DataFrame) :
  nrows a = nrows b -> index a = index b ->
  (forall k, cols a !! k = cols b !! k) -> a = b.
Proof.
  destruct a as [na ia ma], b as [nb ib mb]. cbn [nrows index cols].
  intros -> -> H. f_equal. by apply map_eq.
Qed.

Lemma cell_frame_other p close df k :
  k ∉ derived_columns -> cols (cell_frame p close df) !! k = cols df !! k.
Proof.
  intros Hk. unfold derived_columns in Hk.
  rewrite !not_elem_of_cons in Hk.
  destruct Hk as (H1 & H2 & H3 & H4 & H5 & H6 & H7 & H8 & H9 & _).
  unfold cell_frame, bt_frame, ma_frame, ma_raised_frame.
  rewrite !cols_with_col_ne by (intros E; symmetry in E; contradiction).
  reflexivity.
Qed.

Lemma cell_frame_overwrites p q close df :
  cell_frame p close (cell_frame q close df) = cell_frame p close df.
Proof.
  apply frame_eq; [reflexivity | reflexivity |]. intros k.
  destruct (decide (k ∈ derived_columns)) as [Hk | Hk].
  - apply cell_frame_derived; [reflexivity | assumption].
  - rewrite !cell_frame_other by assumption. reflexivity.
Qed.

(** X9. A run of the pipeline that completes erases every trace of the
    run before it: when neither short window exceeds the number of rows, the
    frame after running the cell [q] and then the cell [p] is exactly the
    frame after running [p] alone.  In particular running the same cell
    twice changes nothing the second time. *)
Theorem later_run_overwrites_earlier :
  forall (p q : params) (df : DataFrame) (close : Series),
    cols df !! "Close" = Some close ->
    length close = nrows df ->
    short_window p <= nrows df ->
    short_window q <= nrows df ->
    exists out_q out_p : DataFrame,
      run_pipeline q df = (Ok tt, out_q)
      /\ run_pipeline p df = (Ok tt, out_p)
      /\ run_pipeline p out_q = (Ok tt, out_p)
      /\ run_pipeline p out_p = (Ok tt, out_p).
Proof.
  intros p q df close Hc Hl Hp Hq.
  exists (cell_frame q close df), (cell_frame p close df).
  split; [by apply pipeline_frame |].
  split; [by apply pipeline_frame |].
  split.
  - rewrite <- (cell_frame_overwrites p q close df).
    apply pipeline_frame.
    + by apply cell_frame_close.
    + by rewrite nrows_cell_frame.
    + by rewrite nrows_cell_frame.
  - rewrite <- (cell_frame_overwrites p p close df) at 2.
    apply pipeline_frame.
    + by apply cell_frame_close.
    + by rewrite nrows_cell_frame.
    + by rewrite nrows_cell_frame.
Qed.

(** X10. [best_results] is the shared frame, not a copy: when
    [hyperparameter_tuning], on a series of at least 30 rows, prints the
    "metrics for the best parameters", the frame holds the columns of the
    last cell its loops ran (short 30, long 100, stop-loss 0.07,
    take-profit 0.15), whichever cell was selected as best.  The frame it
    ends with carries the strategy returns of that last cell, and the Sharpe
    ratio that the metrics printer computes on it is theirs. *)
Theorem metrics_are_those_of_last_cell :
  forall (df : DataFrame) (close : Series),
    cols df !! "Close" = Some close ->
    length close = nrows df ->
    30 <= nrows df ->
    let out := (hyperparameter_tuning df).2 in
    let strat := strategy_return_col last_main_cell (nrows df) close in
    cols out !! "Strategy_Return" = Some strat
    /\ exists m,
         print_performance_metrics out = (metrics_outcome (index df) m, out)
         /\ sharpe_ratio m = (mean strat / std strat * F64.sqrt (of_Z 252))%F.
Proof.
  intros df close Hc Hl Hpos out strat. subst out.
  rewrite (hyperparameter_tuning_frame close df Hc Hl Hpos). cbn [snd].
  destruct main_grid_last as [init ->].
  rewrite cells_frame_snoc.
  assert (Hs : cols (cell_frame last_main_cell close (cells_frame init close df))
               !! "Strategy_Return" = Some strat).
  { destruct (cell_frame_cells last_main_cell close (cells_frame init close df))
      as (_ & _ & _ & _ & Hs & _).
    - by apply cells_frame_close.
    - rewrite nrows_cells_frame in Hs. exact Hs. }
  split; [exact Hs |].
  destruct (print_performance_metrics_result strat _ Hs) as (m & final & Hm & Hsh & _).
  { unfold strat. rewrite length_strategy_return_col; [lia | assumption]. }
  exists m. rewrite index_cell_frame, index_cells_frame in Hm.
  split; assumption.
Qed.

(** ** The transition column *)

Lemma signal_at_flag s l close t :
  signal_at s l close t = zero \/ signal_at s l close t = one.
Proof.
  unfold signal_at. destruct (t <? s)%nat; [by left |].
  destruct (_ >? _)%F; [by right | by left].
Qed.

Lemma trend_cell_of_cell x : x = zero \/ x = one -> trend_cell (trend_of_cell x) = x.
Proof. intros [-> | ->]; reflexivity. Qed.

Lemma ma_frame_position s l close df :
  cols (ma_frame s l close df) !! "Position"
  = Some (fillna zero (diff (signal_col (nrows df) s l close))).
Proof. unfold ma_frame. cols_simpl. reflexivity. Qed.

(** X11. The [Position] column that signal generation writes, when it
    returns, is the transition series of the flags: it is 0 on the first date
    and, at every later date, +1 when the flag went from Down to Up, -1 when
    it went from Up to Down, and 0 when it did not change. *)
Theorem position_column_marks_crossovers :
  forall (df : DataFrame) (close : Series) (short_window long_window : nat),
    cols df !! "Close" = Some close ->
    length close = nrows df ->
    short_window <= nrows df ->
    exists out : DataFrame,
      apply_moving_average_strategy short_window long_window df = (Ok tt, out)
      /\ (0 < nrows df -> cell out "Position" 0 = Some zero)
      /\ forall t, 1 <= t -> t < nrows df ->
           exists prev cur : Trend,
             cell out "Signal" (t - 1) = Some (trend_cell prev)
             /\ cell out "Signal" t = Some (trend_cell cur)
             /\ cell out "Position" t = Some (transition_cell prev cur).
Proof.
  intros df close s l Hc Hl Hsn.
  exists (ma_frame s l close df).
  split; [apply apply_moving_average_strategy_frame; assumption |].
  set (sg := signal_col (nrows df) s l close).
  assert (Hlen : length sg = nrows df) by (by apply length_signal_col).
  split.
  - intros Hn.
    rewrite (cell_lookup _ _ _ _ (ma_frame_position s l close df)). fold sg.
    unfold fillna, diff. rewrite list_lookup_fmap, lookup_zip_with.
    rewrite lookup_shift1_0 by lia.
    unfold sg. rewrite lookup_signal_col by (assumption || lia).
    destruct (signal_at_flag s l close 0) as [-> | ->]; reflexivity.
  - intros t Ht Hlt.
    rewrite !(cell_lookup _ _ _ _ (ma_frame_signal s l close df)).
    rewrite (cell_lookup _ _ _ _ (ma_frame_position s l close df)). fold sg.
    exists (trend_of_cell (signal_at s l close (t - 1))),
      (trend_of_cell (signal_at s l close t)).
    rewrite !trend_cell_of_cell by apply signal_at_flag.
    unfold sg at 1 2. rewrite !lookup_signal_col by (assumption || lia).
    split; [reflexivity |]. split; [reflexivity |].
    unfold fillna, diff. rewrite list_lookup_fmap, lookup_zip_with.
    destruct t as [| t]; [lia |].
    rewrite lookup_shift1_S by lia.
    unfold sg. rewrite !lookup_signal_col by (assumption || lia).
    replace (S t - 1) with t by lia.
    destruct (signal_at_flag s l close t) as [-> | ->],
      (signal_at_flag s l close (S t)) as [-> | ->]; reflexivity.
Qed.

(** ** Cells that never trade *)

Lemma mul_finite_zero r :
  is_finite r = true -> exists s, (r * zero)%F = S754_zero s.
Proof.
  destruct r as [s | s | | s m e]; try discriminate; intros _; eexists; reflexivity.
Qed.

Lemma cumprod_from_one_plus_zeros l :
  Forall (fun x => exists s, x = S754_zero s) l ->
  cumprod_from one (map (F64.add one) l) = replicate (length l) one.
Proof.
  induction 1 as [| x r [s ->] _ IH]; [reflexivity |].
  cbn [map cumprod_from length replicate].
  assert (H1 : (one + S754_zero s)%F = one) by (destruct s; reflexivity).
  rewrite H1. cbn [is_nan one]. change (one * one)%F with one.
  by rewrite IH.
Qed.

Lemma cumulative_idle l :
  Forall (fun x => exists s, x = S754_zero s) l ->
  cumulative (NaN :: l) = flat_returns (S (length l)).
Proof.
  intros Hl. unfold cumulative, cumprod. cbn [map flat_returns].
  change (one + NaN)%F with NaN. cbn [cumprod_from is_nan map].
  change (NaN - one)%F with NaN. f_equal.
  rewrite cumprod_from_one_plus_zeros by assumption.
  rewrite fmap_replicate. reflexivity.
Qed.

Lemma strategy_return_idle p n close :
  length close = n -> 1 <= n ->
  (forall t r, pct_change close !! S t = Some r -> is_finite r = true) ->
  signal_col n (short_window p) (long_window p) close = replicate n zero ->
  exists l, strategy_return_col p n close = NaN :: l
            /\ length l = n - 1
            /\ Forall (fun x => exists s, x = S754_zero s) l.
Proof.
  intros Hl Hn Hfin Hsig.
  pose proof (length_strategy_return_col p n close Hl) as Hlen.
  destruct (strategy_return_col p n close) as [| x0 l] eqn:E;
    [simpl in Hlen; lia |].
  assert (Hcell : forall t, strategy_return_col p n close !! t = (x0 :: l) !! t)
    by (intros t; by rewrite E).
  unfold strategy_return_col in Hcell. rewrite Hsig, managed_col_flat in Hcell.
  exists l. split; [| split].
  - f_equal. specialize (Hcell 0). rewrite lookup_zip_with in Hcell.
    rewrite lookup_shift1_0 in Hcell by (rewrite length_replicate; lia).
    change ((x0 :: l) !! 0) with (Some x0) in Hcell.
    destruct (pct_change close !! 0) as [r |] eqn:Hr.
    + cbn [mbind option_bind] in Hcell.
      rewrite mul_NaN_r in Hcell. by injection Hcell as <-.
    + apply lookup_ge_None_1 in Hr. rewrite length_pct_change in Hr. lia.
  - simpl in Hlen. lia.
  - apply Forall_lookup. intros t x Hx.
    assert (Ht : S t < n).
    { apply lookup_lt_Some in Hx. simpl in Hlen. lia. }
    specialize (Hcell (S t)). rewrite lookup_zip_with in Hcell.
    rewrite lookup_shift1_S in Hcell by (rewrite length_replicate; lia).
    rewrite lookup_replicate_2 in Hcell by lia.
    change ((x0 :: l) !! S t) with (l !! t) in Hcell.
    destruct (pct_change close !! S t) as [r |] eqn:Hr.
    + cbn [mbind option_bind] in Hcell.
      rewrite Hx in Hcell. injection Hcell as <-.
      apply mul_finite_zero. by apply (Hfin t).
    + apply lookup_ge_None_1 in Hr. rewrite length_pct_change in Hr. lia.
Qed.

(** X18. On a series of at least two closes whose period returns are all
    finite, a grid cell that completes its run but can never see an Up flag
    - because its two windows are equal, or because the series is shorter
    than its long window - scores exactly 0: it is a candidate of the search
    like any other and wins whenever no cell before it scores 0 or more and
    none scores above 0. *)
Theorem never_trading_cell_scores_zero :
  forall (p : params) (df : DataFrame) (close : Series),
    cols df !! "Close" = Some close ->
    length close = nrows df ->
    2 <= nrows df ->
    short_window p <= nrows df ->
    (forall t r, pct_change close !! S t = Some r -> is_finite r = true) ->
    short_window p = long_window p \/ nrows df < long_window p ->
    score p (nrows df) close = zero
    /\ exists out, run_cell p df = (Ok zero, out).
Proof.
  intros p df close Hc Hl Hn Hsw Hfin Hcase.
  assert (Hscore : score p (nrows df) close = zero).
  { unfold score.
    destruct (strategy_return_idle p (nrows df) close Hl ltac:(lia) Hfin
                (signal_col_flat_cases p (nrows df) close Hl Hsw Hcase))
      as (l & -> & Hlen & Hzeros).
    rewrite cumulative_idle by assumption.
    rewrite last_flat_returns by lia. reflexivity. }
  split; [exact Hscore |].
  exists (cell_frame p close df).
  rewrite <- Hscore. apply run_cell_frame; [assumption | assumption | assumption | lia].
Qed.

(** ** The metrics printer *)

(** X19. [print_performance_metrics] never writes to the frame.  It fails
    with [KeyError('Strategy_Return')] when that column is missing.  When
    the column is there, the outcome depends on the index, through
    [cumulative_returns[-1]]: on the default integer index that is a lookup
    of the label -1 and fails with [KeyError(-1)], whatever the column
    holds; on an index of dates it is the last cell, so the call fails with
    [IndexError] on an empty column and otherwise returns, with the
    drawdown of the compounded strategy returns and with the terminal
    compounded return divided by [len(data) / 252] as annualized return. *)
Theorem print_performance_metrics_outcomes :
  forall (df : DataFrame),
    (cols df !! "Strategy_Return" = None ->
       print_performance_metrics df = (Raise (KeyError "Strategy_Return"), df))
    /\ (forall strat,
          cols df !! "Strategy_Return" = Some strat ->
          index df = RangeIndex ->
          print_performance_metrics df = (Raise (KeyError (LInt (-1))), df))
    /\ (cols df !! "Strategy_Return" = Some [] ->
          index df = DatetimeIndex ->
          print_performance_metrics df = (Raise IndexError, df))
    /\ (forall strat final,
          cols df !! "Strategy_Return" = Some strat ->
          index df = DatetimeIndex ->
          last (cumulative strat) = Some final ->
          exists m,
            print_performance_metrics df = (Ok m, df)
            /\ max_drawdown m = calculate_max_drawdown (cumulative strat)
            /\ annualized_return m = (final / (of_nat (nrows df) / of_Z 252))%F).
Proof.
  intros df. split; [| split; [| split]].
  - intros Hs. unfold print_performance_metrics.
    apply bind_raise. by apply getcol_missing.
  - intros strat Hs Hi. unfold print_performance_metrics.
    rewrite !(bind_ok _ _ _ _ _ (getcol_ok _ _ _ Hs)).
    unfold bind, getitem_minus_1. rewrite Hi. reflexivity.
  - intros Hs Hi. unfold print_performance_metrics.
    rewrite !(bind_ok _ _ _ _ _ (getcol_ok _ _ _ Hs)).
    unfold bind, getitem_minus_1. rewrite Hi. reflexivity.
  - intros strat final Hs Hi Hlast. unfold print_performance_metrics.
    rewrite !(bind_ok _ _ _ _ _ (getcol_ok _ _ _ Hs)).
    unfold bind, getitem_minus_1. rewrite Hi.
    unfold cumulative in Hlast. rewrite Hlast.
    eexists. split; [reflexivity |]. split; reflexivity.
Qed.

End Numerics.

(** * data_fetching.py *)

(** ** Fetching *)

Lemma fetch_fold_lookup download start_date end_date tickers :
  forall (acc : gmap string DataFrame) (t : string),
    foldl (fetch_step download start_date end_date) acc tickers !! t =
      if decide (t ∈ tickers) then
        match usable download t start_date end_date with
        | Some data => Some data
        | None => acc !! t
        end
      else acc !! t.
Proof.
  induction tickers as [| k rest IH]; intros acc t.
  - cbn [foldl]. rewrite decide_False by apply not_elem_of_nil. reflexivity.
  - cbn [foldl]. rewrite IH.
    assert (Hstep : fetch_step download start_date end_date acc k !! t =
              if decide (k = t) then
                match usable download t start_date end_date with
                | Some data => Some data
                | None => acc !! t
                end
              else acc !! t).
    { unfold fetch_step, usable. destruct (decide (k = t)) as [-> | Hne].
      - destruct (download t start_date end_date) as [data | e]; [| reflexivity].
        destruct (is_empty data); [reflexivity | apply lookup_insert_eq].
      - destruct (download k start_date end_date) as [data | e]; [| reflexivity].
        destruct (is_empty data); [reflexivity | by apply lookup_insert_ne]. }
    rewrite Hstep.
    destruct (decide (t ∈ k :: rest)) as [Hin' | Hnin'];
      destruct (decide (t ∈ rest)) as [Hin | Hnin];
      destruct (decide (k = t)) as [E | Hne]; try reflexivity.
    + destruct (usable download t start_date end_date); reflexivity.
    + apply elem_of_cons in Hin' as [E | E]; [by symmetry in E | contradiction].
    + exfalso. apply Hnin'. by apply list_elem_of_further.
    + exfalso. apply Hnin'. by apply list_elem_of_further.
    + exfalso. apply Hnin'. subst k. apply list_elem_of_here.
Qed.

(** X15. Whatever the provider does (return a frame, return an empty frame,
    raise), [fetch_crypto_data_multiple] returns normally, and the dict it
    returns maps a ticker to a frame exactly when the ticker was requested and
    the provider returned a non-empty frame for it; tickers that failed or
    came back empty are silently left out. *)
Theorem fetch_keeps_usable_tickers_only :
  forall (download : string -> string -> string -> result DataFrame)
         (tickers : list string) (start_date end_date t : string),
    fetch_crypto_data_multiple download tickers start_date end_date !! t =
      if decide (t ∈ tickers) then usable download t start_date end_date
      else None.
Proof.
  intros download tickers start_date end_date t.
  unfold fetch_crypto_data_multiple. rewrite fetch_fold_lookup.
  destruct (decide (t ∈ tickers)); [| apply lookup_empty].
  destruct (usable download t start_date end_date); [reflexivity | apply lookup_empty].
Qed.

(** ** Splitting into quarters *)

Section PartitionByKey.

Context {A : Type}.

Lemma filter_all (P : A -> Prop) `{!forall x, Decision (P x)} (l : list A) :
  Forall P l -> filter P l = l.
Proof.
  induction 1 as [| x r Hx _ IH]; [reflexivity |].
  rewrite filter_cons_True by assumption. by rewrite IH.
Qed.

Lemma filter_none (P : A -> Prop) `{!forall x, Decision (P x)} (l : list A) :
  Forall (fun x => ~ P x) l -> filter P l = [].
Proof.
  induction 1 as [| x r Hx _ IH]; [reflexivity |].
  by rewrite filter_cons_False.
Qed.

Lemma filter_Forall_iff (P1 P2 : A -> Prop)
    `{!forall x, Decision (P1 x), !forall x, Decision (P2 x)} (l : list A) :
  Forall (fun x => P1 x <-> P2 x) l -> filter P1 l = filter P2 l.
Proof.
  induction 1 as [| x r Hx _ IH]; [reflexivity |].
  destruct (decide (P1 x)) as [H1 | H1].
  - rewrite !filter_cons_True by tauto. by rewrite IH.
  - rewrite !filter_cons_False by tauto. exact IH.
Qed.

Lemma Forall_filter_keep (Q P : A -> Prop) `{!forall x, Decision (P x)} (l : list A) :
  Forall Q l -> Forall Q (filter P l).
Proof.
  induction 1 as [| x r Hx _ IH]; [constructor |].
  destruct (decide (P x)).
  - rewrite filter_cons_True by assumption. by constructor.
  - by rewrite filter_cons_False.
Qed.

Lemma Forall_filter_holds (P : A -> Prop) `{!forall x, Decision (P x)} (l : list A) :
  Forall P (filter P l).
Proof.
  induction l as [| x r IH]; [constructor |].
  destruct (decide (P x)).
  - rewrite filter_cons_True by assumption. by constructor.
  - by rewrite filter_cons_False.
Qed.

Lemma StronglySorted_filter_keep (R : relation A) (P : A -> Prop)
    `{!forall x, Decision (P x)} (l : list A) :
  StronglySorted R l -> StronglySorted R (filter P l).
Proof.
  induction 1 as [| x r Hr IH Hx]; [constructor |].
  destruct (decide (P x)).
  - rewrite filter_cons_True by assumption.
    constructor; [exact IH | by apply Forall_filter_keep].
  - by rewrite filter_cons_False.
Qed.

Lemma StronglySorted_weaken (R S : relation A) (P : A -> Prop) (l : list A) :
  (forall x y, P x -> P y -> R x y -> S x y) ->
  Forall P l -> StronglySorted R l -> StronglySorted S l.
Proof.
  intros HRS HP Hs. induction Hs as [| x r Hr IH Hx]; [constructor |].
  apply Forall_cons in HP as [Hpx Hpr].
  constructor; [by apply IH |].
  rewrite Forall_forall in Hx, Hpr |- *.
  intros y Hy. apply HRS; auto.
Qed.

Variable k : A -> nat.

Lemma sorted_last_max (l : list A) z :
  StronglySorted (fun x y => k x <= k y) l -> last l = Some z ->
  Forall (fun x => k x <= k z) l.
Proof.
  induction 1 as [| x r Hr IH Hx]; intros Hz; [constructor |].
  destruct r as [| y r'].
  - injection Hz as <-. constructor; [lia | constructor].
  - rewrite last_cons_cons in Hz. constructor; [| by apply IH].
    rewrite Forall_forall in Hx. apply Hx.
    apply list_elem_of_lookup. exists (pred (length (y :: r'))).
    by rewrite <- last_lookup.
Qed.

Lemma sorted_split (l : list A) a :
  StronglySorted (fun x y => k x <= k y) l ->
  Forall (fun x => a <= k x) l ->
  filter (fun x => k x = a) l ++ filter (fun x => k x <> a) l = l.
Proof.
  induction 1 as [| x r Hr IH Hx]; intros Hge; [reflexivity |].
  apply Forall_cons in Hge as [Hxa Hra].
  destruct (decide (k x = a)) as [E | E].
  - rewrite filter_cons_True by assumption.
    rewrite (filter_cons_False (fun y => k y <> a)) by tauto.
    cbn [app]. f_equal. by apply IH.
  - rewrite filter_cons_False by assumption.
    rewrite (filter_cons_True (fun y => k y <> a)) by assumption.
    rewrite filter_none, filter_all; [reflexivity | |];
      (eapply Forall_impl; [exact Hx |]); cbn; intros y Hy; lia.
Qed.

(** A list sorted by a key is the concatenation, in key order, of its
    sublists of equal key. *)
Lemma partition_by_key (n : nat) :
  forall (a : nat) (l : list A),
    StronglySorted (fun x y => k x <= k y) l ->
    Forall (fun x => a <= k x < a + n) l ->
    (seq a n ≫= fun v => filter (fun x => k x = v) l) = l.
Proof.
  induction n as [| n IH]; intros a l Hs Hr.
  - destruct l as [| x r]; [reflexivity |].
    apply Forall_cons in Hr as [Hx _]. lia.
  - cbn [seq]. rewrite bind_cons.
    set (l' := filter (fun x => k x <> a) l).
    assert (Hext : Forall (fun v => filter (fun x => k x = v) l
                                   = filter (fun x => k x = v) l') (seq (S a) n)).
    { apply Forall_forall. intros v Hv. apply elem_of_seq in Hv.
      unfold l'. symmetry. apply list_filter_filter_l. intros x Hx. lia. }
    rewrite (Forall_bind_ext _ _ _ Hext).
    rewrite (IH (S a) l').
    + apply sorted_split; [assumption |].
      eapply Forall_impl; [exact Hr |]. cbn. intros x Hx. lia.
    + by apply StronglySorted_filter_keep.
    + unfold l'.
      pose proof (Forall_filter_holds (fun x => k x <> a) l) as H1.
      pose proof (Forall_filter_keep (fun x => a <= k x < a + S n)
                    (fun x => k x <> a) l Hr) as H2.
      rewrite Forall_forall in H1, H2 |- *.
      intros x Hx. specialize (H1 x Hx). specialize (H2 x Hx). cbn in *. lia.
Qed.

End PartitionByKey.

Lemma list_bind_bind {A B C} (f : A -> list B) (g : B -> list C) (l : list A) :
  (l ≫= f) ≫= g = l ≫= fun x => f x ≫= g.
Proof.
  induction l as [| x r IH]; [reflexivity |].
  by rewrite !bind_cons, bind_app, IH.
Qed.

Lemma list_fmap_of_bind {A B C} (f : B -> C) (g : A -> list B) (l : list A) :
  f <$> (l ≫= g) = l ≫= fun x => f <$> g x.
Proof.
  induction l as [| x r IH]; [reflexivity |].
  by rewrite !bind_cons, fmap_app, IH.
Qed.

Lemma quarter_of_bounds m q :
  1 <= m -> 1 <= q ->
  (quarter_of m = q <-> 3 * (q - 1) + 1 <= m /\ m <= 3 * (q - 1) + 1 + 3 - 1).
Proof.
  intros Hm Hq. unfold quarter_of.
  pose proof (Nat.div_mod_eq (m - 1) 3) as Hdiv.
  pose proof (Nat.mod_upper_bound (m - 1) 3) as Hmod.
  split; intros H; nia.
Qed.

Lemma quarter_entry_rows rows year q :
  quarter_entry rows year q ≫= snd
  = loc_months rows year (3 * (q - 1) + 1) (3 * (q - 1) + 1 + 3 - 1).
Proof.
  unfold quarter_entry. cbv zeta.
  destruct (loc_months rows year (3 * (q - 1) + 1) (3 * (q - 1) + 1 + 3 - 1))
    as [| r rest]; [reflexivity |].
  by rewrite bind_singleton.
Qed.

Lemma loc_months_quarter rows year q :
  1 <= q ->
  Forall (fun r : dated_row => 1 <= dmonth (fst r) <= 12) rows ->
  loc_months rows year (3 * (q - 1) + 1) (3 * (q - 1) + 1 + 3 - 1)
  = filter (fun r : dated_row => quarter_of (dmonth (fst r)) = q)
      (filter (fun r : dated_row => dyear (fst r) = year) rows).
Proof.
  intros Hq Hvalid. rewrite list_filter_filter. unfold loc_months.
  apply filter_Forall_iff.
  eapply Forall_impl; [exact Hvalid |]. cbn. intros r [Hm _].
  rewrite (quarter_of_bounds (dmonth (fst r)) q Hm Hq). tauto.
Qed.

Lemma date_le_year d1 d2 : date_le d1 d2 -> dyear d1 <= dyear d2.
Proof. unfold date_le. lia. Qed.

Lemma date_le_quarter d1 d2 :
  dyear d1 = dyear d2 -> date_le d1 d2 ->
  quarter_of (dmonth d1) <= quarter_of (dmonth d2).
Proof.
  unfold date_le, quarter_of. intros Hy Hle.
  assert (Hm : dmonth d1 - 1 <= dmonth d2 - 1) by lia.
  pose proof (Nat.Div0.div_le_mono _ _ 3 Hm). lia.
Qed.

Lemma quarter_of_range m : 1 <= m <= 12 -> 1 <= quarter_of m < 1 + 4.
Proof.
  intros Hm. unfold quarter_of.
  pose proof (Nat.div_mod_eq (m - 1) 3) as Hdiv.
  pose proof (Nat.mod_upper_bound (m - 1) 3) as Hmod. lia.
Qed.

(** X16. [split_into_quarters] fails with [IndexError] on a frame without
    rows.  On any other frame in chronological order it returns, no key is
    stored twice, and every
    stored quarter is non-empty, has a quarter number from 1 to 4, and holds
    exactly the rows of the frame that fall in the three months of that
    quarter of that year. *)
Theorem quarters_hold_their_calendar_rows :
  split_into_quarters [] = Raise IndexError
  /\ forall (rows : list dated_row),
       rows <> [] ->
       chronological rows ->
       exists quarters,
         split_into_quarters rows = Ok quarters
         /\ NoDup (fst <$> quarters)
         /\ forall q year data,
              (q, year, data) ∈ quarters ->
              data <> [] /\ 1 <= q <= 4
              /\ forall r, r ∈ data <->
                   r ∈ rows /\ dyear (fst r) = year
                   /\ 3 * q - 2 <= dmonth (fst r) <= 3 * q.
Proof.
  split; [reflexivity |].
  intros rows Hne _. unfold split_into_quarters.
  destruct (lookup_lt_is_Some_2 rows 0) as [first_row Hfirst].
  { destruct rows; [congruence | simpl; lia]. }
  destruct (last_is_Some rows) as [last_row Hlast].
  { destruct rows; [congruence | simpl; lia]. }
  rewrite Hfirst, Hlast. cbv zeta.
  eexists. split; [reflexivity |].
  set (years := range (dyear (fst first_row)) (dyear (fst last_row) + 1)).
  assert (Hentry : forall year q e,
            e ∈ quarter_entry rows year q ->
            e = (q, year, loc_months rows year (3 * (q - 1) + 1)
                            (3 * (q - 1) + 1 + 3 - 1))
            /\ snd e <> []).
  { intros year q e. unfold quarter_entry. cbv zeta.
    destruct (loc_months rows year (3 * (q - 1) + 1) (3 * (q - 1) + 1 + 3 - 1))
      as [| r rest] eqn:E; [by intros H%elem_of_nil |].
    intros H%list_elem_of_singleton. subst e. split; [reflexivity | discriminate]. }
  split.
  - assert (Hkeys : fst <$> (years ≫= fun year =>
                       range 1 5 ≫= fun q => quarter_entry rows year q)
                    = years ≫= fun year =>
                        range 1 5 ≫= fun q => fst <$> quarter_entry rows year q).
    { rewrite list_fmap_of_bind. apply list_bind_ext; [| reflexivity].
      intros y. apply list_fmap_of_bind. }
    rewrite Hkeys.
    apply NoDup_bind.
    + intros y1 y2 key _ _ H1 H2.
      apply list_elem_of_bind in H1 as (q1 & H1 & _).
      apply list_elem_of_bind in H2 as (q2 & H2 & _).
      apply list_elem_of_fmap in H1 as (e1 & -> & H1).
      apply list_elem_of_fmap in H2 as (e2 & E & H2).
      apply Hentry in H1 as [-> _]. apply Hentry in H2 as [-> _].
      cbn in E. congruence.
    + intros y _. apply NoDup_bind.
      * intros q1 q2 key _ _ H1 H2.
        apply list_elem_of_fmap in H1 as (e1 & -> & H1).
        apply list_elem_of_fmap in H2 as (e2 & E & H2).
        apply Hentry in H1 as [-> _]. apply Hentry in H2 as [-> _].
        cbn in E. congruence.
      * intros q _. unfold quarter_entry. cbv zeta.
        destruct (loc_months rows y (3 * (q - 1) + 1) (3 * (q - 1) + 1 + 3 - 1));
          [constructor |].
        apply NoDup_singleton.
      * apply NoDup_seq.
    + apply NoDup_seq.
  - intros q year data Hin.
    apply list_elem_of_bind in Hin as (y & Hin & _).
    apply list_elem_of_bind in Hin as (q' & Hin & Hq).
    apply Hentry in Hin as [E Hdata]. injection E as -> -> ->.
    apply elem_of_seq in Hq.
    split; [exact Hdata |]. split; [lia |].
    intros r. unfold loc_months. rewrite list_elem_of_filter.
    split; intros H; repeat split; try tauto; lia.
Qed.

Lemma quarters_hold_their_calendar_rows_witness :
  exists quarters,
    split_into_quarters
      [(mkDate 2020 1 15, of_Z 100); (mkDate 2020 5 2, of_Z 110)] = Ok quarters
    /\ NoDup (fst <$> quarters).
Proof.
  destruct quarters_hold_their_calendar_rows as [_ Hsplit].
  destruct (Hsplit [(mkDate 2020 1 15, of_Z 100); (mkDate 2020 5 2, of_Z 110)])
    as (quarters & Hrun & Hkeys & _); [discriminate | |].
  - split;
      repeat match goal with
             | |- StronglySorted _ _ => constructor
             | |- Forall _ _ => constructor
             end;
      unfold date_le; cbn [fst dyear dmonth dday]; lia.
  - exists quarters. split; [exact Hrun | exact Hkeys].
Defined.

Lemma chronological_years rows first_row last_row :
  chronological rows ->
  rows !! 0 = Some first_row -> last rows = Some last_row ->
  StronglySorted (fun r1 r2 : dated_row => dyear (fst r1) <= dyear (fst r2)) rows
  /\ Forall (fun r : dated_row =>
               dyear (fst first_row) <= dyear (fst r)
               < dyear (fst first_row)
                 + (dyear (fst last_row) + 1 - dyear (fst first_row))) rows.
Proof.
  intros [Hs _] Hfirst Hlast.
  assert (Hsy : StronglySorted
                  (fun r1 r2 : dated_row => dyear (fst r1) <= dyear (fst r2)) rows).
  { apply (StronglySorted_weaken
             (fun r1 r2 : dated_row => date_le (fst r1) (fst r2))
             (fun r1 r2 : dated_row => dyear (fst r1) <= dyear (fst r2))
             (fun _ => True) rows).
    - intros x y _ _. apply date_le_year.
    - by apply Forall_true.
    - exact Hs. }
  split; [exact Hsy |].
  pose proof (sorted_last_max (fun r : dated_row => dyear (fst r)) rows last_row
                Hsy Hlast) as Hmax.
  assert (Hmin : Forall (fun r : dated_row => dyear (fst first_row) <= dyear (fst r))
                   rows).
  { destruct rows as [| x r]; [discriminate Hfirst |].
    injection Hfirst as ->. apply StronglySorted_cons in Hsy as [Hx _].
    constructor; [lia | exact Hx]. }
  rewrite Forall_forall in Hmax, Hmin |- *.
  intros r Hr. specialize (Hmax r Hr). specialize (Hmin r Hr). cbn in *. lia.
Qed.

Lemma year_rows_by_quarter rows year :
  chronological rows ->
  (range 1 5 ≫= fun q => quarter_entry rows year q ≫= snd)
  = filter (fun r : dated_row => dyear (fst r) = year) rows.
Proof.
  intros [Hs Hvalid].
  set (Ly := filter (fun r : dated_row => dyear (fst r) = year) rows).
  assert (Hext : Forall (fun q => quarter_entry rows year q ≫= snd
                   = filter (fun r : dated_row => quarter_of (dmonth (fst r)) = q) Ly)
                   (range 1 5)).
  { apply Forall_forall. intros q Hq. apply elem_of_seq in Hq.
    rewrite quarter_entry_rows. apply loc_months_quarter; [lia | exact Hvalid]. }
  rewrite (Forall_bind_ext _ _ _ Hext).
  apply (partition_by_key (fun r : dated_row => quarter_of (dmonth (fst r))) 4 1 Ly).
  - apply (StronglySorted_weaken
             (fun r1 r2 : dated_row => date_le (fst r1) (fst r2)) _
             (fun r : dated_row => dyear (fst r) = year)).
    + intros x y Hx Hy. apply date_le_quarter. congruence.
    + apply Forall_filter_holds.
    + by apply StronglySorted_filter_keep.
  - unfold Ly. apply Forall_filter_keep.
    eapply Forall_impl; [exact Hvalid |]. cbn. intros r Hr.
    by apply quarter_of_range.
Qed.

(** X17. On a non-empty frame whose index is in chronological order,
    [split_into_quarters] loses and duplicates nothing: the quarters it
    returns, read in the order in which they were stored, are consecutive
    pieces of the frame, and put end to end they give back every row in its
    original order. *)
Theorem quarters_partition_the_frame :
  forall (rows : list dated_row),
    rows <> [] ->
    chronological rows ->
    exists quarters,
      split_into_quarters rows = Ok quarters
      /\ quarters ≫= snd = rows.
Proof.
  intros rows Hne Hchron. unfold split_into_quarters.
  destruct (lookup_lt_is_Some_2 rows 0) as [first_row Hfirst].
  { destruct rows; [congruence | simpl; lia]. }
  destruct (last_is_Some rows) as [last_row Hlast].
  { destruct rows; [congruence | simpl; lia]. }
  rewrite Hfirst, Hlast. cbv zeta.
  eexists. split; [reflexivity |].
  destruct (chronological_years rows first_row last_row Hchron Hfirst Hlast)
    as [Hsy Hrange].
  rewrite list_bind_bind.
  etrans.
  { apply list_bind_ext; [| reflexivity]. intros year.
    rewrite list_bind_bind. by apply year_rows_by_quarter. }
  apply (partition_by_key (fun r : dated_row => dyear (fst r))
           (dyear (fst last_row) + 1 - dyear (fst first_row))
           (dyear (fst first_row)) rows Hsy Hrange).
Qed.

Lemma quarters_partition_the_frame_witness :
  exists quarters,
    split_into_quarters
      [(mkDate 2020 1 15, of_Z 100); (mkDate 2020 5 2, of_Z 110);
       (mkDate 2021 12 31, of_Z 90)] = Ok quarters
    /\ quarters ≫= snd
       = [(mkDate 2020 1 15, of_Z 100); (mkDate 2020 5 2, of_Z 110);
          (mkDate 2021 12 31, of_Z 90)].
Proof.
  apply quarters_partition_the_frame; [discriminate |].
  split;
    repeat match goal with
           | |- StronglySorted _ _ => constructor
           | |- Forall _ _ => constructor
           end;
    unfold date_le; cbn [fst dyear dmonth dday]; lia.
Defined.

(** * Instances and examples

    Accumulation from the left satisfies the two laws assumed of the rolling
    mean and of the array sum; the examples below are run with it.  Their
    sums are sums of small integers, which are exact in doubles in any
    order. *)

Lemma left_window_mean_short (w : nat) (prefix : Series) :
  length prefix < w -> left_window_mean w prefix = NaN.
Proof.
  intros H. unfold left_window_mean. apply Nat.ltb_lt in H. by rewrite H.
Qed.

Lemma left_sum_zeros (k : nat) : left_sum (replicate k zero) = zero.
Proof.
  unfold left_sum. induction k as [| k IH]; simpl; [reflexivity |].
  change (zero + zero)%F with zero. exact IH.
Qed.

(** The thresholds of the risk overlay are rounded as the code rounds them:
    [100 * (1 + 0.15)] is the double just below 115, so a close of exactly
    115 after a close of 100 is a take-profit exit. *)
Example take_profit_threshold_is_rounded :
  (of_Z 100 * (one + decimal 15 100) <? of_Z 115)%F = true
  /\ cols (apply_risk_management (decimal 5 100) (decimal 15 100)
             (three_days 100 115)).2 !! "Managed_Position"
     = Some [zero; one; zero].
Proof. split; vm_compute; reflexivity. Qed.

Lemma risk_overlay_transition_witness :
  exists states : list PositionState,
    apply_risk_management (decimal 5 100) (decimal 10 100) (three_days 100 94) =
      (Ok tt, with_col "Managed_Position" (map position_cell states)
                (three_days 100 94))
    /\ length states = 3.
Proof.
  destruct (risk_overlay_transition (three_days 100 94)
              [of_Z 100; of_Z 100; of_Z 94] [Down; Up; Up]
              (decimal 5 100) (decimal 10 100))
    as [[states [Hrun [Hlen _]]] _]; try reflexivity.
  exists states. split; [exact Hrun | exact Hlen].
Defined.

Lemma strategy_return_no_lookahead_witness :
  exists out1 out2 : DataFrame,
    run_pipeline left_window_mean (mkParams 1 2 (decimal 5 100) (decimal 10 100))
      (price_frame [of_Z 1; of_Z 2; of_Z 3; of_Z 4]) = (Ok tt, out1)
    /\ run_pipeline left_window_mean (mkParams 1 2 (decimal 5 100) (decimal 10 100))
         (price_frame [of_Z 1; of_Z 2; of_Z 3; of_Z 9; of_Z 7]) = (Ok tt, out2)
    /\ exists v : float,
         cell out1 "Strategy_Return" 2 = Some v
         /\ cell out2 "Strategy_Return" 2 = Some v.
Proof.
  destruct (strategy_return_no_lookahead left_window_mean) as (_ & _ & _ & Hpipe).
  destruct (Hpipe (mkParams 1 2 (decimal 5 100) (decimal 10 100))
              (price_frame [of_Z 1; of_Z 2; of_Z 3; of_Z 4])
              (price_frame [of_Z 1; of_Z 2; of_Z 3; of_Z 9; of_Z 7])
              [of_Z 1; of_Z 2; of_Z 3; of_Z 4]
              [of_Z 1; of_Z 2; of_Z 3; of_Z 9; of_Z 7])
    as (out1 & out2 & H1 & H2 & _ & Hsame);
    [reflexivity | reflexivity | reflexivity | reflexivity
    | simpl; lia | simpl; lia |].
  exists out1, out2. split; [exact H1 |]. split; [exact H2 |].
  apply (Hsame 2); [simpl; lia | simpl; lia | reflexivity].
Defined.

(** C3, as stated, fails: [backtest_strategy] changes the frame it is
    given.  On a two-day frame the call adds a [Daily_Return] column that
    the input did not have. *)
Lemma backtest_strategy_mutates_input :
  cols two_days_managed !! "Daily_Return" = None
  /\ cols (backtest_strategy two_days_managed).2 !! "Daily_Return"
     = Some [NaN; (of_Z 110 / of_Z 100 - one)%F]
  /\ (backtest_strategy two_days_managed).2 <> two_days_managed.
Proof.
  assert (H1 : cols two_days_managed !! "Daily_Return" = None)
    by (vm_compute; reflexivity).
  assert (H2 : cols (backtest_strategy two_days_managed).2 !! "Daily_Return"
               = Some [NaN; (of_Z 110 / of_Z 100 - one)%F])
    by (vm_compute; reflexivity).
  split; [exact H1 |]. split; [exact H2 |].
  intros Heq. rewrite Heq, H1 in H2. discriminate H2.
Qed.

Lemma backtest_strategy_frame_effect_witness :
  exists out : DataFrame,
    backtest_strategy two_days_managed = (Ok tt, out)
    /\ nrows out = 2
    /\ cols out !! "Close" = Some [of_Z 100; of_Z 110].
Proof.
  destruct (backtest_strategy_frame_effect two_days_managed
              [of_Z 100; of_Z 110] [zero; one])
    as (out & Hrun & Hn & _ & Hclose & _); try reflexivity.
  exists out. split; [exact Hrun |]. split; [exact Hn | exact Hclose].
Defined.



(** C5, as stated, fails: with two observations and [long_window = 3]
    signal generation returns normally, with every flag Down. *)
Lemma apply_moving_average_strategy_short_history :
  exists out : DataFrame,
    apply_moving_average_strategy left_window_mean 2 3
      (price_frame [of_Z 100; of_Z 105]) = (Ok tt, out)
    /\ cols out !! "Signal" = Some [zero; zero]
    /\ nrows out <= 3.
Proof.
  eexists. split; [vm_compute; reflexivity |].
  split; [vm_compute; reflexivity | simpl; lia].
Qed.

Lemma signal_generation_checks_no_history_witness :
  exists out : DataFrame,
    apply_moving_average_strategy left_window_mean 2 3
      (price_frame [of_Z 100; of_Z 105]) = (Ok tt, out)
    /\ cols out !! "Signal" = Some (replicate 2 zero).
Proof.
  destruct (signal_generation_checks_no_history left_window_mean
              left_window_mean_short
              (price_frame [of_Z 100; of_Z 105]) [of_Z 100; of_Z 105] 2 3)
    as [Hok _]; [reflexivity | reflexivity |].
  destruct Hok as (out & Hrun & Hshort); [simpl; lia |].
  exists out. split; [exact Hrun |].
  apply Hshort. simpl. lia.
Defined.

(** C6, as stated, fails: a stop-loss of 2 and a take-profit of -1, both
    outside (0,1), are accepted and the overlay returns normally. *)
Lemma apply_risk_management_accepts_any_parameter :
  (apply_risk_management (of_Z 2) (of_Z (-1)) (three_days 100 94)).1 = Ok tt
  /\ (one <? of_Z 2)%F = true
  /\ (of_Z (-1) <? zero)%F = true.
Proof.
  split; [vm_compute; reflexivity |].
  split; vm_compute; reflexivity.
Qed.

Lemma apply_risk_management_total_witness :
  apply_risk_management (of_Z 2) NaN (three_days 100 94) =
    (Ok tt,
     with_col "Managed_Position"
       (managed_col 3 (of_Z 2) NaN [zero; one; one]
          [of_Z 100; of_Z 100; of_Z 94])
       (three_days 100 94)).
Proof.
  apply (apply_risk_management_total (three_days 100 94)
           [of_Z 100; of_Z 100; of_Z 94] [zero; one; one] (of_Z 2) NaN);
    reflexivity.
Defined.

(** C7, as stated, fails: with [short_window = 1] and [long_window = 2] the
    flag at index 1, which is before index [long_window], is evaluated and
    is Up. *)
Lemma trend_flag_up_before_long_window :
  exists out : DataFrame,
    apply_moving_average_strategy left_window_mean 1 2
      (price_frame [of_Z 1; of_Z 2; of_Z 3])
    = (Ok tt, out)
    /\ cell out "Signal" 1 = Some (trend_cell Up)
    /\ 1 < 2.
Proof.
  eexists. split; [vm_compute; reflexivity |].
  split; [vm_compute; reflexivity | lia].
Qed.

Lemma trend_flag_compares_averages_witness :
  exists out : DataFrame,
    apply_moving_average_strategy left_window_mean 1 2
      (price_frame [of_Z 1; of_Z 2; of_Z 3])
    = (Ok tt, out)
    /\ cell out "Signal" 0 = Some zero.
Proof.
  destruct (trend_flag_compares_averages left_window_mean left_window_mean_short
              (price_frame [of_Z 1; of_Z 2; of_Z 3]) [of_Z 1; of_Z 2; of_Z 3] 1 2)
    as [Hok _]; [reflexivity | reflexivity |].
  destruct Hok as (out & Hrun & Hcells); [simpl; lia |].
  exists out. split; [exact Hrun |].
  destruct (Hcells 0) as (_ & _ & _ & _ & Hwarm); [simpl; lia |].
  apply Hwarm. lia.
Defined.



(** Two cells with the same score: the one enumerated first is returned. *)
Example tie_keeps_first_cell :
  score left_window_mean (mkParams 1 2 (decimal 5 100) (decimal 10 100)) 4
    [of_Z 100; of_Z 101; of_Z 102; of_Z 103]
  = score left_window_mean (mkParams 1 2 (decimal 7 100) (decimal 10 100)) 4
      [of_Z 100; of_Z 101; of_Z 102; of_Z 103]
  /\ (tune_hyperparameters left_window_mean [1] [2]
        [decimal 5 100; decimal 7 100] [decimal 10 100]
        (price_frame [of_Z 100; of_Z 101; of_Z 102; of_Z 103])).1
     = Ok (Some (mkParams 1 2 (decimal 5 100) (decimal 10 100))).
Proof. split; vm_compute; reflexivity. Qed.

(** C9, as stated, fails on a series of a single observation, whose
    terminal cumulative returns are the undefined first-date value, not 0;
    and on the constant 0, whose period returns are [0/0]. *)
Lemma constant_single_observation_terminal_nan :
  (exists out : DataFrame,
     run_cell left_window_mean (mkParams 1 2 (decimal 5 100) (decimal 10 100))
       (price_frame [of_Z 100]) = (Ok NaN, out)
     /\ iloc_last "Cumulative_Market_Returns" out = (Ok NaN, out))
  /\ (exists out : DataFrame,
        run_cell left_window_mean (mkParams 1 2 (decimal 5 100) (decimal 10 100))
          (price_frame [of_Z 0; of_Z 0]) = (Ok NaN, out)
        /\ iloc_last "Cumulative_Market_Returns" out = (Ok NaN, out))
  /\ (NaN =? zero)%F = false.
Proof.
  split; [| split].
  - eexists. split; vm_compute; reflexivity.
  - eexists. split; vm_compute; reflexivity.
  - reflexivity.
Qed.

Lemma constant_price_returns_witness :
  exists out : DataFrame,
    run_pipeline left_window_mean (mkParams 1 2 (decimal 5 100) (decimal 10 100))
      (price_frame (replicate 3 (of_Z 100))) = (Ok tt, out)
    /\ iloc_last "Cumulative_Strategy_Returns" out = (Ok zero, out)
    /\ exists m,
         print_performance_metrics left_sum out = (Ok m, out)
         /\ sharpe_ratio m = NaN.
Proof.
  destruct (constant_price_returns left_window_mean left_sum left_sum_zeros
              (price_frame (replicate 3 (of_Z 100))) (of_Z 100) 3
              (mkParams 1 2 (decimal 5 100) (decimal 10 100)))
    as (out & Hrun & _ & Hlast & _ & Hsharpe);
    [reflexivity | reflexivity | reflexivity | simpl; lia |].
  exists out. split; [exact Hrun |]. split.
  - apply Hlast. lia.
  - apply Hsharpe. lia.
Defined.

Lemma close_column_never_modified_witness :
  (run_cell left_window_mean (mkParams 1 2 (decimal 5 100) (decimal 10 100))
     (for_each [CallSignal 2 3; CallRisk (decimal 3 100) (decimal 15 100); CallBacktest]
        (run_call left_window_mean)
        (price_frame [of_Z 1; of_Z 2; of_Z 3; of_Z 4])).2).1
  = (run_cell left_window_mean (mkParams 1 2 (decimal 5 100) (decimal 10 100))
       (price_frame [of_Z 1; of_Z 2; of_Z 3; of_Z 4])).1.
Proof.
  destruct (close_column_never_modified left_window_mean left_sum
              (price_frame [of_Z 1; of_Z 2; of_Z 3; of_Z 4]))
    as (_ & _ & _ & Hrun).
  destruct (Hrun [of_Z 1; of_Z 2; of_Z 3; of_Z 4]
              [CallSignal 2 3; CallRisk (decimal 3 100) (decimal 15 100); CallBacktest]
              (mkParams 1 2 (decimal 5 100) (decimal 10 100)))
    as (Hsame & _); [reflexivity | reflexivity |].
  exact Hsame.
Defined.

(** A run that raises leaves the columns of the run before it: after the
    cell (1, 2), the cell (5, 6) fails on four rows and the managed positions
    in the frame are still those of (1, 2). *)
Example failed_run_leaves_earlier_columns :
  let p := mkParams 1 2 (decimal 5 100) (decimal 10 100) in
  let q := mkParams 5 6 (decimal 5 100) (decimal 10 100) in
  let after_p :=
    (run_cell left_window_mean p (price_frame [of_Z 1; of_Z 2; of_Z 3; of_Z 4])).2 in
  (run_cell left_window_mean q after_p).1 = Raise ValueError
  /\ cols (run_cell left_window_mean q after_p).2 !! "Managed_Position"
     = cols after_p !! "Managed_Position"
  /\ cols after_p !! "Managed_Position" = Some [zero; one; zero; one].
Proof.
  cbv zeta. split; [vm_compute; reflexivity |].
  split; vm_compute; reflexivity.
Qed.

(** ** Witnesses of the further properties *)

Lemma managed_positions_follow_signal_witness :
  exists managed : Series,
    apply_risk_management (decimal 5 100) (decimal 10 100) (three_days 100 94) =
      (Ok tt, with_col "Managed_Position" managed (three_days 100 94))
    /\ length managed = 3.
Proof.
  destruct (managed_positions_follow_signal (three_days 100 94)
              [of_Z 100; of_Z 100; of_Z 94] [zero; one; one]
              (decimal 5 100) (decimal 10 100))
    as (managed & Hrun & Hlen & _); try reflexivity.
  exists managed. split; [exact Hrun | exact Hlen].
Defined.

Lemma warm_up_is_flat_witness :
  exists out : DataFrame,
    run_pipeline left_window_mean (mkParams 2 3 (decimal 5 100) (decimal 10 100))
      (price_frame [of_Z 100; of_Z 105; of_Z 100; of_Z 95; of_Z 90]) = (Ok tt, out)
    /\ cell out "Managed_Position" 1 = Some zero.
Proof.
  destruct (warm_up_is_flat left_window_mean left_window_mean_short
              (mkParams 2 3 (decimal 5 100) (decimal 10 100))
              (price_frame [of_Z 100; of_Z 105; of_Z 100; of_Z 95; of_Z 90])
              [of_Z 100; of_Z 105; of_Z 100; of_Z 95; of_Z 90])
    as (out & Hrun & Hflat); [reflexivity | reflexivity | simpl; lia |].
  exists out. split; [exact Hrun |].
  apply (Hflat 1); [simpl; lia | left; simpl; lia].
Defined.

Lemma equal_windows_never_trade_witness :
  exists out : DataFrame,
    run_pipeline left_window_mean (mkParams 2 2 (decimal 5 100) (decimal 10 100))
      (price_frame [of_Z 1; of_Z 2; of_Z 4]) = (Ok tt, out)
    /\ cols out !! "Managed_Position" = Some (replicate 3 zero).
Proof.
  destruct (equal_windows_never_trade left_window_mean left_window_mean_short
              2 (decimal 5 100) (decimal 10 100)
              (price_frame [of_Z 1; of_Z 2; of_Z 4]) [of_Z 1; of_Z 2; of_Z 4])
    as (out & Hrun & _ & Hm); [reflexivity | reflexivity | simpl; lia |].
  exists out. split; [exact Hrun | exact Hm].
Defined.

Lemma missing_close_raises_before_any_write_witness :
  backtest_strategy (signal_frame [zero; one]) =
    (Raise (KeyError "Close"), signal_frame [zero; one]).
Proof.
  destruct (missing_close_raises_before_any_write left_window_mean left_sum
              (signal_frame [zero; one]))
    as (_ & Hbt & _); [reflexivity |].
  exact Hbt.
Defined.

Lemma risk_management_without_signal_witness :
  apply_risk_management (decimal 5 100) (decimal 10 100)
    (price_frame [of_Z 100; of_Z 94]) =
  (Raise (KeyError "Signal"),
   with_col "Managed_Position" (replicate 2 zero) (price_frame [of_Z 100; of_Z 94])).
Proof.
  destruct (risk_management_without_signal (price_frame [of_Z 100; of_Z 94])
              (decimal 5 100) (decimal 10 100))
    as (_ & Hraise); [reflexivity |].
  apply Hraise. simpl. lia.
Defined.

Lemma backtest_without_positions_witness :
  backtest_strategy (price_frame [of_Z 100; of_Z 110]) =
    (Raise (KeyError "Managed_Position"),
     with_col "Daily_Return" (pct_change [of_Z 100; of_Z 110])
       (price_frame [of_Z 100; of_Z 110])).
Proof.
  apply (backtest_without_positions (price_frame [of_Z 100; of_Z 110])
           [of_Z 100; of_Z 110]); reflexivity.
Defined.

Lemma single_observation_selects_nothing_witness :
  exists out,
    tune_hyperparameters left_window_mean [1] [2] [decimal 5 100] [decimal 10 100]
      (price_frame [of_Z 100]) = (Ok None, out).
Proof.
  destruct (single_observation_selects_nothing left_window_mean left_sum
              (price_frame [of_Z 100]) (of_Z 100))
    as (_ & Htune & _); [reflexivity | reflexivity |].
  apply Htune; try discriminate. repeat constructor.
Defined.

(** Thirty days of closes, 100, 101, ..., 129: the shortest series on which
    the loops of [hyperparameter_tuning] complete. *)
Lemma hyperparameter_tuning_outcome_witness :
  exists res out,
    hyperparameter_tuning left_window_mean left_sum
      (price_frame (map (fun i => of_nat (100 + i)) (seq 0 30))) = (res, out).
Proof.
  destruct (hyperparameter_tuning_outcome left_window_mean left_sum
              (price_frame (map (fun i => of_nat (100 + i)) (seq 0 30)))
              (map (fun i => of_nat (100 + i)) (seq 0 30)))
    as (_ & Hrun); [reflexivity | reflexivity |].
  destruct Hrun as (res & out & Hrun & _); [simpl; lia |].
  exists res, out. exact Hrun.
Defined.

Lemma later_run_overwrites_earlier_witness :
  exists out_q out_p : DataFrame,
    run_pipeline left_window_mean (mkParams 2 3 (decimal 3 100) (decimal 15 100))
      (price_frame [of_Z 1; of_Z 2; of_Z 3; of_Z 4]) = (Ok tt, out_q)
    /\ run_pipeline left_window_mean (mkParams 1 2 (decimal 5 100) (decimal 10 100)) out_q
       = (Ok tt, out_p).
Proof.
  destruct (later_run_overwrites_earlier left_window_mean
              (mkParams 1 2 (decimal 5 100) (decimal 10 100))
              (mkParams 2 3 (decimal 3 100) (decimal 15 100))
              (price_frame [of_Z 1; of_Z 2; of_Z 3; of_Z 4])
              [of_Z 1; of_Z 2; of_Z 3; of_Z 4])
    as (out_q & out_p & Hq & _ & Hqp & _);
    [reflexivity | reflexivity | simpl; lia | simpl; lia |].
  exists out_q, out_p. split; [exact Hq | exact Hqp].
Defined.

Lemma metrics_are_those_of_last_cell_witness :
  cols (hyperparameter_tuning left_window_mean left_sum
          (price_frame (map (fun i => of_nat (100 + i)) (seq 0 30)))).2
    !! "Strategy_Return"
  = Some (strategy_return_col left_window_mean last_main_cell 30
            (map (fun i => of_nat (100 + i)) (seq 0 30))).
Proof.
  destruct (metrics_are_those_of_last_cell left_window_mean left_sum
              (price_frame (map (fun i => of_nat (100 + i)) (seq 0 30)))
              (map (fun i => of_nat (100 + i)) (seq 0 30)))
    as (Hs & _); [reflexivity | reflexivity | simpl; lia |].
  exact Hs.
Defined.

Lemma position_column_marks_crossovers_witness :
  exists out : DataFrame,
    apply_moving_average_strategy left_window_mean 1 2
      (price_frame [of_Z 1; of_Z 2; of_Z 3])
    = (Ok tt, out)
    /\ cell out "Position" 0 = Some zero.
Proof.
  destruct (position_column_marks_crossovers left_window_mean
              (price_frame [of_Z 1; of_Z 2; of_Z 3]) [of_Z 1; of_Z 2; of_Z 3] 1 2)
    as (out & Hrun & Hfirst & _); [reflexivity | reflexivity | simpl; lia |].
  exists out. split; [exact Hrun |]. apply Hfirst. simpl. lia.
Defined.

Lemma never_trading_cell_scores_zero_witness :
  score left_window_mean (mkParams 2 5 (decimal 5 100) (decimal 10 100)) 3
    [of_Z 100; of_Z 110; of_Z 90] = zero.
Proof.
  destruct (never_trading_cell_scores_zero left_window_mean left_window_mean_short
              (mkParams 2 5 (decimal 5 100) (decimal 10 100))
              (price_frame [of_Z 100; of_Z 110; of_Z 90])
              [of_Z 100; of_Z 110; of_Z 90]) as [Hscore _];
    [reflexivity | reflexivity | simpl; lia | simpl; lia | | right; simpl; lia
    | exact Hscore].
  intros [| [| t]] r Hr; vm_compute in Hr; [| | discriminate Hr];
    injection Hr as <-; reflexivity.
Defined.

Lemma print_performance_metrics_outcomes_witness :
  print_performance_metrics left_sum (price_frame [of_Z 100; of_Z 110])
  = (Raise (KeyError "Strategy_Return"), price_frame [of_Z 100; of_Z 110]).
Proof.
  destruct (print_performance_metrics_outcomes left_sum
              (price_frame [of_Z 100; of_Z 110])) as (Hmissing & _).
  apply Hmissing. reflexivity.
Defined.

(** On the default integer index the metrics printer fails on a frame on
    which it returns when the same rows are indexed by dates. *)
Example print_performance_metrics_integer_index :
  let out :=
    (run_pipeline left_window_mean (mkParams 1 2 (decimal 5 100) (decimal 10 100))
       (price_frame [of_Z 1; of_Z 2; of_Z 3; of_Z 4])).2 in
  (exists m, (print_performance_metrics left_sum out).1 = Ok m)
  /\ (print_performance_metrics left_sum (with_index RangeIndex out)).1
     = Raise (KeyError (LInt (-1))).
Proof.
  cbv zeta. split; [eexists |]; vm_compute; reflexivity.
Qed.
